(** * Kokkai RAG: the query-planning and hybrid-retrieval pipeline

    A shallow embedding of [backend/scripts/persistent-rag-cli.ts]
    (class [PersistentKokkaiRAGCLI]) and of the query-planning service
    ([QueryPlanningService.createQueryPlan]), with the properties of the
    planner, the structured filter, the per-sub-query similarity search,
    the result aggregation and the answer synthesis.

    The external collaborators (completion service, embedding service,
    vector store) are oracles of an environment; every call is recorded in
    a trace, and [await] on a rejected promise is an exception of the
    error monad [M]. *)

From Stdlib Require Import String Ascii List Bool Arith ZArith NArith Lia.
From Stdlib Require Import QArith Qcanon Qround DecimalString.
From Stdlib Require Import Permutation Sorted.
Import ListNotations.

Set Implicit Arguments.
Open Scope nat_scope.
Set Warnings "-register-all".

(* ===================================================================== *)
(** * The JavaScript runtime the program relies on *)
(* ===================================================================== *)

Module JS.

(** ** Strings

    A JavaScript string is a sequence of UTF-16 code units:
    [s.length] is [length s], [s.substring(0, n)] is [firstn n s] and
    string concatenation is [++]. *)

Definition jsstring := list N.

(** Code units of a string literal of the source, written here in UTF-8. *)
Fixpoint utf16 (bs : list N) : jsstring :=
  match bs with
  | [] => []
  | b0 :: r0 =>
    if (b0 <? 128)%N then b0 :: utf16 r0
    else match r0 with
    | [] => [65533%N]
    | b1 :: r1 =>
      if (b0 <? 224)%N then
        N.lor (N.shiftl (N.land b0 31) 6) (N.land b1 63) :: utf16 r1
      else match r1 with
      | [] => [65533%N]
      | b2 :: r2 =>
        if (b0 <? 240)%N then
          N.lor (N.shiftl (N.land b0 15) 12)
                (N.lor (N.shiftl (N.land b1 63) 6) (N.land b2 63)) :: utf16 r2
        else match r2 with
        | [] => [65533%N]
        | b3 :: r3 =>
          let cp := N.lor (N.shiftl (N.land b0 7) 18)
                   (N.lor (N.shiftl (N.land b1 63) 12)
                   (N.lor (N.shiftl (N.land b2 63) 6) (N.land b3 63))) in
          let v := (cp - 65536)%N in
          (55296 + N.shiftr v 10)%N :: (56320 + N.land v 1023)%N :: utf16 r3
        end
      end
    end
  end.

Definition js (s : string) : jsstring :=
  utf16 (map N_of_ascii (list_ascii_of_string s)).

Definition str_eqb (a b : jsstring) : bool :=
  if list_eq_dec N.eq_dec a b then true else false.

(** [arr.join(sep)] on an array of strings. *)
Fixpoint join (sep : jsstring) (arr : list jsstring) : jsstring :=
  match arr with
  | [] => []
  | [x] => x
  | x :: rest => x ++ sep ++ join sep rest
  end.

(** [arr.includes(x)] on an array of strings. *)
Definition includes (arr : list jsstring) (x : jsstring) : bool :=
  existsb (str_eqb x) arr.

(** [s.substring(0, n)] for a count [n]. *)
Definition substring0 (s : jsstring) (n : nat) : jsstring := firstn n s.

(** ECMAScript WhiteSpace and LineTerminator code units, as [trim] strips. *)
Definition is_space (c : N) : bool :=
  ((9 <=? c) && (c <=? 13) || (c =? 32) || (c =? 160) || (c =? 5760)
   || (8192 <=? c) && (c <=? 8202) || (c =? 8232) || (c =? 8233)
   || (c =? 8239) || (c =? 8287) || (c =? 12288) || (c =? 65279))%N.

Fixpoint trimStart (s : jsstring) : jsstring :=
  match s with
  | c :: r => if is_space c then trimStart r else s
  | [] => []
  end.

Definition trim (s : jsstring) : jsstring := rev (trimStart (rev (trimStart s))).

(** ** Numbers

    A finite number is the rational it denotes.  The program compares
    scores by the sign of a difference and prints them with [toFixed];
    both are functions of the denoted value. *)

Definition number := Qc.

Definition num (q : Q) : number := Q2Qc q.

(** Decimal digits of a non-negative integer, as in a template literal. *)
Definition digits (n : N) : jsstring := js (NilZero.string_of_uint (N.to_uint n)).

(** [x.toFixed(f)] (for [|x| < 10^21]): the integer [n] for which
    [n / 10^f - x] is closest to zero, the larger one on a tie; at least
    [f + 1] digits, with a point before the last [f]. *)
Definition toFixed (x : number) (f : nat) : jsstring :=
  let neg := Qlt_le_dec (this x) 0 in
  let ax := if neg then Qopp (this x) else this x in
  let n := Qfloor (Qplus (Qmult ax (inject_Z (10 ^ Z.of_nat f))) (1 # 2)) in
  let m := digits (Z.to_N n) in
  let m := repeat 48%N (S f - length m) ++ m in
  let k := length m in
  (if neg then js "-" else [])
    ++ firstn (k - f) m
    ++ (if Nat.eqb f 0 then [] else js "." ++ skipn (k - f) m).

(** ** Arrays *)

(** [arr.slice(0, end)] for an integer [end]: a negative [end] counts from
    the back. *)
Definition slice0 {A} (arr : list A) (end_ : Z) : list A :=
  if (end_ <? 0)%Z
  then firstn (Z.to_nat (Z.max (Z.of_nat (length arr) + end_) 0)) arr
  else firstn (Z.to_nat end_) arr.

(** [arr.sort(cmp)] is stable, and for a consistent comparator its result
    is the one stably sorted arrangement: [a] stays before [b] unless
    [cmp a b > 0]. *)
Section Sort.
Context {A : Type} (cmp : A -> A -> number).

Fixpoint insert (x : A) (sorted : list A) : list A :=
  match sorted with
  | [] => [x]
  | y :: rest =>
    if Qclt_le_dec 0 (cmp x y) then y :: insert x rest
    else x :: sorted
  end.

Definition sort (arr : list A) : list A := fold_right insert [] arr.
End Sort.

(** ** Map keyed by strings

    A [Map] iterates in insertion order; [set] on a present key replaces
    the value and keeps the key's position. *)
Section MapOps.
Context {V : Type}.

Definition Map := list (jsstring * V).

Fixpoint set (m : Map) (k : jsstring) (v : V) : Map :=
  match m with
  | [] => [(k, v)]
  | (k', v') :: rest =>
    if str_eqb k' k then (k', v) :: rest else (k', v') :: set rest k v
  end.

(** [new Map(entries)] *)
Definition newMap (entries : list (jsstring * V)) : Map :=
  fold_left (fun m kv => set m (fst kv) (snd kv)) entries [].

(** [Array.from(m.values())] *)
Definition values (m : Map) : list V := map snd m.

Fixpoint get (m : Map) (k : jsstring) : option V :=
  match m with
  | [] => None
  | (k', v') :: rest => if str_eqb k' k then Some v' else get rest k
  end.
End MapOps.

End JS.

Import JS.


Definition dq : jsstring := [34%N].
Definition nl : jsstring := [10%N].

(* ===================================================================== *)
(** * Data model *)
(* ===================================================================== *)

(** [interface SpeechResult] *)
Record SpeechResult := {
  speechId : jsstring;
  speaker : jsstring;
  party : jsstring;
  date : jsstring;
  meeting : jsstring;
  content : jsstring;
  url : jsstring;
  score : number
}.

(** [interface KokkaiEntities]; every field is optional. *)
Record DateRange := { start : jsstring; end_ : jsstring }.

Record KokkaiEntities := {
  speakers : option (list jsstring);
  parties : option (list jsstring);
  dateRange : option DateRange;
  meetings : option (list jsstring);
  topics : option (list jsstring);
  positions : option (list jsstring)
}.

(** [interface QueryPlan], the contract of [searchWithPlan]. *)
Record QueryPlan := {
  originalQuestion : jsstring;
  subqueries : list jsstring;
  entities : KokkaiEntities;
  enabledStrategies : list jsstring;
  confidence : number;
  estimatedComplexity : number
}.

(** [interface DatabaseRow]; [similarity_score] is the text of
    [1 - (embedding <=> $1)]. *)
Module DatabaseRow.
Record t := {
  speech_id : jsstring;
  speaker : option jsstring;
  speaker_group : option jsstring;
  date : option jsstring;
  meeting_name : option jsstring;
  speech_text : option jsstring;
  speech_url : option jsstring;
  similarity_score : jsstring
}.
End DatabaseRow.

(** An embedding vector. *)
Definition Vec := list number.

(** ** Values of [JSON.parse]

    An object lists its properties in creation order under distinct keys;
    [None] as a value is [undefined]. *)
Inductive json :=
| JNull
| JBool (b : bool)
| JNum (n : number)
| JStr (s : jsstring)
| JArr (items : list json)
| JObj (props : list (jsstring * json)).

Definition value := option json.

Fixpoint lookup (props : list (jsstring * json)) (k : jsstring) : value :=
  match props with
  | [] => None
  | (k', v) :: rest => if str_eqb k' k then Some v else lookup rest k
  end.

(** [ToBoolean] *)
Definition truthy (v : value) : bool :=
  match v with
  | None | Some JNull => false
  | Some (JBool b) => b
  | Some (JNum n) => negb (Qc_eq_bool n (num 0))
  | Some (JStr s) => negb (str_eqb s [])
  | Some (JArr _) | Some (JObj _) => true
  end.

(** [v.k] on a value that is neither [null] nor [undefined], for a key
    [k] that is a data property: own properties of an object, [length] of
    an array or a string. *)
Definition prop (v : json) (k : jsstring) : value :=
  match v with
  | JObj props => lookup props k
  | JArr items =>
    if str_eqb k (js "length") then Some (JNum (num (inject_Z (Z.of_nat (length items)))))
    else None
  | JStr s =>
    if str_eqb k (js "length") then Some (JNum (num (inject_Z (Z.of_nat (length s)))))
    else None
  | _ => None
  end.

(** [v?.k] *)
Definition optProp (v : value) (k : jsstring) : value :=
  match v with
  | None | Some JNull => None
  | Some j => prop j k
  end.

(** [v || d] *)
Definition or_else (v : value) (d : json) : json :=
  match v with
  | Some j => if truthy v then j else d
  | None => d
  end.

(** [ToString] succeeds on a value of [JSON.parse] unless it reaches an
    object whose own [toString] property hides the inherited method. *)
Fixpoint stringifiable (v : json) : bool :=
  match v with
  | JObj props => match lookup props (js "toString") with Some _ => false | None => true end
  | JArr items => forallb stringifiable items
  | _ => true
  end.

(** The plan as it exists at run time: [JSON.parse] yields [any], and the
    planner stores what it finds. *)
Module Dyn.
Record KokkaiEntities := {
  speakers : json;
  parties : json;
  topics : json;
  meetings : json;
  positions : json;
  dateRange : value
}.

Record QueryPlan := {
  originalQuestion : jsstring;
  subqueries : json;
  entities : KokkaiEntities;
  enabledStrategies : json;
  confidence : json;
  estimatedComplexity : json
}.
End Dyn.

(* ===================================================================== *)
(** * The collaborators and the effect monad *)
(* ===================================================================== *)

(** Thrown values. *)
Inductive Exn :=
| Error (message : jsstring)
| TypeError (message : jsstring).

Definition message_of (e : Exn) : jsstring :=
  match e with Error m | TypeError m => m end.

(** The statements sent to the store.  [FilterSql w ps] is
    [SELECT DISTINCT e.speech_id FROM kokkai_speech_embeddings e WHERE w
    LIMIT 1000] with parameters [ps]; [SearchSql v ids c k] selects the rows
    of [kokkai_speech_embeddings] with [embedding <=> v < c], among
    [speech_id = ANY(ids)] when [ids] is given, ordered by
    [embedding <=> v], [LIMIT k]. *)
Inductive Sql :=
| FilterSql (where_ : jsstring) (params : list jsstring)
| SearchSql (queryEmbedding : Vec) (candidateIds : option (list jsstring))
            (ceiling : number) (limit : Z).

(** [client.chat.completions.create] request. *)
Record ChatRequest := {
  system_content : jsstring;
  user_content : jsstring;
  model : jsstring;
  max_tokens : Z;
  temperature : number
}.

Inductive Call :=
| CComplete (prompt : jsstring)
| CEmbed (text : jsstring)
| CQuery (sql : Sql)
| CChat (req : ChatRequest).

Definition Trace := list Call.

(** The world outside the pipeline.  A collaborator answers a request
    given the calls made so far, with a result or a thrown value; [None]
    is a collaborator that was not initialised. *)
Record Env := {
  JSON_parse : jsstring -> jsstring + json;
  parseFloat : jsstring -> option number;
  llm : option (Trace -> jsstring -> Exn + jsstring);
  embedModel : option (Trace -> jsstring -> Exn + Vec);
  dbPool : option (Trace -> Sql -> Exn + list DatabaseRow.t);
  getOpenAIClient : Exn + (Trace -> ChatRequest -> Exn + option jsstring);
  createQueryPlanPrompt : jsstring -> jsstring;
  getQueryPlanSystemPrompt : jsstring;
  resolveModel : jsstring -> jsstring
}.

(** Computations: read the environment, extend the trace, return or throw. *)
Definition M (A : Type) := Env -> Trace -> Trace * (Exn + A).

Definition ret {A} (a : A) : M A := fun _ t => (t, inr a).

Definition throw {A} (e : Exn) : M A := fun _ t => (t, inl e).

Definition bind {A B} (m : M A) (k : A -> M B) : M B :=
  fun env t =>
    match m env t with
    | (t', inr a) => k a env t'
    | (t', inl e) => (t', inl e)
    end.

Definition try_catch {A} (body : M A) (handler : Exn -> M A) : M A :=
  fun env t =>
    match body env t with
    | (t', inr a) => (t', inr a)
    | (t', inl e) => handler e env t'
    end.

Definition ask : M Env := fun env t => (t, inr env).

Definition lift {A} (r : Exn + A) : M A := fun _ t => (t, r).

(** One call to a collaborator, recorded in the trace. *)
Definition call {A} (c : Call) (oracle : Trace -> Exn + A) : M A :=
  fun _ t => (t ++ [c], oracle t).

Declare Scope monad_scope.
Delimit Scope monad_scope with monad.
Notation "x <- m ;; k" := (bind m (fun x => k))
  (at level 61, m at next level, right associativity) : monad_scope.
Notation "m ;;; k" := (bind m (fun _ => k))
  (at level 61, right associativity) : monad_scope.
Open Scope monad_scope.

(* ===================================================================== *)
(** * The planner *)
(* ===================================================================== *)

(** The instruction prompt of [planKokkaiQuery], line by line. *)
Definition plannerPrompt (question : jsstring) : jsstring :=
  join nl [
    js "国会議事録検索システムのプランナーとして、以下の質問を分析してください。";
    [];
    js "質問: " ++ dq ++ question ++ dq;
    [];
    js "以下のJSON形式で出力してください（```json等は不要）：";
    js "{";
    js "  " ++ dq ++ js "subqueries" ++ dq ++ js ": [";
    js "    " ++ dq ++ js "質問を効果的に検索するための分解されたサブクエリ1" ++ dq ++ js ",";
    js "    " ++ dq ++ js "サブクエリ2" ++ dq;
    js "  ],";
    js "  " ++ dq ++ js "entities" ++ dq ++ js ": {";
    js "    " ++ dq ++ js "speakers" ++ dq ++ js ": [" ++ dq ++ js "議員名があれば具体的に。総理→岸田文雄等" ++ dq ++ js "],";
    js "    " ++ dq ++ js "parties" ++ dq ++ js ": [" ++ dq ++ js "政党名があれば" ++ dq ++ js "],";
    js "    " ++ dq ++ js "topics" ++ dq ++ js ": [" ++ dq ++ js "主要キーワード" ++ dq ++ js ", " ++ dq ++ js "関連語・同義語" ++ dq ++ js "],";
    js "    " ++ dq ++ js "meetings" ++ dq ++ js ": [" ++ dq ++ js "特定の委員会や会議があれば" ++ dq ++ js "],";
    js "    " ++ dq ++ js "positions" ++ dq ++ js ": [" ++ dq ++ js "役職があれば具体的に" ++ dq ++ js "],";
    js "    " ++ dq ++ js "dateRange" ++ dq ++ js ": {" ++ dq ++ js "start" ++ dq ++ js ": " ++ dq ++ js "YYYY-MM-DD" ++ dq ++ js ", " ++ dq ++ js "end" ++ dq ++ js ": " ++ dq ++ js "YYYY-MM-DD" ++ dq ++ js "}";
    js "  },";
    js "  " ++ dq ++ js "enabledStrategies" ++ dq ++ js ": [" ++ dq ++ js "vector" ++ dq ++ js ", " ++ dq ++ js "structured" ++ dq ++ js "],";
    js "  " ++ dq ++ js "confidence" ++ dq ++ js ": 0.8,";
    js "  " ++ dq ++ js "estimatedComplexity" ++ dq ++ js ": 2";
    js "}";
    [];
    js "ルール:";
    js "1. subqueriesは質問を効果的に分解したもの（1-3個）";
    js "2. entitiesは国会議事録検索に有効な情報のみ抽出";
    js "3. enabledStrategiesは[" ++ dq ++ js "vector" ++ dq ++ js ", " ++ dq ++ js "structured" ++ dq ++ js ", " ++ dq ++ js "statistical" ++ dq ++ js "]から選択";
    js "4. confidenceは解析の信頼度(0-1)";
    js "5. estimatedComplexityは処理の複雑さ(1-5)";
    [];
    js "例：";
    js "質問「岸田総理の防衛費についての発言」";
    js "→ speakers: [" ++ dq ++ js "岸田文雄" ++ dq ++ js ", " ++ dq ++ js "内閣総理大臣" ++ dq ++ js "]";
    js "→ topics: [" ++ dq ++ js "防衛費" ++ dq ++ js ", " ++ dq ++ js "防衛予算" ++ dq ++ js ", " ++ dq ++ js "防衛関係費" ++ dq ++ js ", " ++ dq ++ js "国防費" ++ dq ++ js "]";
    js "→ subqueries: [" ++ dq ++ js "岸田総理 防衛費" ++ dq ++ js ", " ++ dq ++ js "内閣総理大臣 防衛予算" ++ dq ++ js "]"
  ].

Definition cannot_convert : Exn :=
  TypeError (js "Cannot convert object to primitive value").

(** [`${v}`] for the value of a property read. *)
Definition interpolate (v : value) : Exn + unit :=
  match v with
  | Some j => if stringifiable j then inr tt else inl cannot_convert
  | None => inr tt
  end.

(** The [console.log] lines that follow the construction of the plan: they
    read [length], call [join] and [toFixed], and so throw on a plan whose
    [enabledStrategies] is no array or whose [confidence] is no number. *)
Definition logPlan (plan : Dyn.QueryPlan) : Exn + unit :=
  match interpolate (prop (Dyn.subqueries plan) (js "length")) with
  | inl e => inl e
  | inr _ =>
  match interpolate
          (Some (or_else (optProp (Some (Dyn.speakers (Dyn.entities plan))) (js "length"))
                         (JNum (num 0)))) with
  | inl e => inl e
  | inr _ =>
  match interpolate
          (Some (or_else (optProp (Some (Dyn.topics (Dyn.entities plan))) (js "length"))
                         (JNum (num 0)))) with
  | inl e => inl e
  | inr _ =>
  match Dyn.enabledStrategies plan with
  | JArr items =>
    if forallb stringifiable items then
      match Dyn.confidence plan with
      | JNum _ => inr tt
      | _ => inl (TypeError (js "plan.confidence.toFixed is not a function"))
      end
    else inl cannot_convert
  | _ => inl (TypeError (js "plan.enabledStrategies.join is not a function"))
  end end end end.

(** The conversion of the parsed response into a plan ([// QueryPlan形式に変換]),
    the same text in [planKokkaiQuery] and in [createQueryPlan]. *)
Definition toQueryPlan (question : jsstring) (planData : json) : Exn + Dyn.QueryPlan :=
  match planData with
  | JNull =>
    inl (TypeError (js "Cannot read properties of null (reading 'subqueries')"))
  | _ =>
    let ents := prop planData (js "entities") in
    inr {|
      Dyn.originalQuestion := question;
      Dyn.subqueries := or_else (prop planData (js "subqueries")) (JArr [JStr question]);
      Dyn.entities := {|
        Dyn.speakers := or_else (optProp ents (js "speakers")) (JArr []);
        Dyn.parties := or_else (optProp ents (js "parties")) (JArr []);
        Dyn.topics := or_else (optProp ents (js "topics")) (JArr []);
        Dyn.meetings := or_else (optProp ents (js "meetings")) (JArr []);
        Dyn.positions := or_else (optProp ents (js "positions")) (JArr []);
        Dyn.dateRange := optProp ents (js "dateRange")
      |};
      Dyn.enabledStrategies :=
        or_else (prop planData (js "enabledStrategies")) (JArr [JStr (js "vector")]);
      Dyn.confidence := or_else (prop planData (js "confidence")) (JNum (num (1 # 2)));
      Dyn.estimatedComplexity :=
        or_else (prop planData (js "estimatedComplexity")) (JNum (num 2))
    |}
  end.

(** From the response text to the returned plan: [JSON.parse], the
    conversion, the log lines. *)
Definition parsePlan (question planText : jsstring) : M Dyn.QueryPlan :=
  env <- ask ;;
  planData <-
    match JSON_parse env planText with
    | inr planData => ret planData
    | inl message =>
      throw (Error (js "Failed to parse LLM response as JSON: " ++ message
                    ++ nl ++ js "Response: " ++ planText))
    end ;;
  plan <- lift (toQueryPlan question planData) ;;
  lift (logPlan plan) ;;;
  ret plan.

(** [planKokkaiQuery(question)] *)
Definition planKokkaiQuery (question : jsstring) : M Dyn.QueryPlan :=
  env <- ask ;;
  match llm env with
  | None => throw (Error (js "LLM not initialized"))
  | Some complete =>
    let prompt := plannerPrompt question in
    try_catch
      (response_text <- call (CComplete prompt) (fun t => complete t prompt) ;;
       let planText := trim response_text in
       parsePlan question planText)
      (fun error => throw error)
  end.

(** [QueryPlanningService.createQueryPlan(userQuestion)] *)
Definition createQueryPlan (userQuestion : jsstring) : M Dyn.QueryPlan :=
  env <- ask ;;
  let userPrompt := createQueryPlanPrompt env userQuestion in
  try_catch
    (client <- lift (getOpenAIClient env) ;;
     let req := {|
       system_content := getQueryPlanSystemPrompt env;
       user_content := userPrompt;
       model := resolveModel env (js "query_planning");
       max_tokens := 3000;
       temperature := num (3 # 10)
     |} in
     content <- call (CChat req) (fun t => client t req) ;;
     match option_map trim content with
     | None | Some [] => throw (Error (js "No text in completion response"))
     | Some planText => parsePlan userQuestion planText
     end)
    (fun error => throw error).

(* ===================================================================== *)
(** * The structured filter *)
(* ===================================================================== *)

(** The callback mapped over [entities.speakers] and [entities.parties]:
    it numbers its parameter after the ones pushed so far and pushes the
    pattern [%name%]. *)
Fixpoint ilikeConditions (column : jsstring) (names : list jsstring)
    (params : list jsstring) : list jsstring * list jsstring :=
  match names with
  | [] => ([], params)
  | name :: rest =>
    let paramIndex := (length params + 1)%nat in
    let params := params ++ [js "%" ++ name ++ js "%"] in
    let (conds, params) := ilikeConditions column rest params in
    ((js "(" ++ column ++ js " ILIKE $" ++ digits (N.of_nat paramIndex) ++ js ")")
       :: conds, params)
  end.

Definition ilikeBlock (column : jsstring) (names : option (list jsstring))
    (st : list jsstring * list jsstring) : list jsstring * list jsstring :=
  let (conditions, params) := st in
  match names with
  | Some ((_ :: _) as names) =>
    let (conds, params) := ilikeConditions column names params in
    (conditions ++ [js "(" ++ join (js " OR ") conds ++ js ")"], params)
  | _ => st
  end.

Definition dateBlock (range : option DateRange)
    (st : list jsstring * list jsstring) : list jsstring * list jsstring :=
  let (conditions, params) := st in
  match range with
  | Some r =>
    let startParam := (length params + 1)%nat in
    let endParam := (length params + 2)%nat in
    (conditions ++ [js "(e.date >= $" ++ digits (N.of_nat startParam)
                    ++ js " AND e.date <= $" ++ digits (N.of_nat endParam) ++ js ")"],
     params ++ [start r; end_ r])
  | None => st
  end.

(** [conditions] and [params] as [applyStructuredFilter] builds them. *)
Definition filterConditions (ents : KokkaiEntities) : list jsstring * list jsstring :=
  dateBlock (dateRange ents)
    (ilikeBlock (js "e.speaker_group") (parties ents)
       (ilikeBlock (js "e.speaker") (speakers ents) ([], []))).

(** [applyStructuredFilter(entities)] *)
Definition applyStructuredFilter (ents : KokkaiEntities) : M (list jsstring) :=
  env <- ask ;;
  match dbPool env with
  | None => throw (Error (js "Database not initialized"))
  | Some pool =>
    let (conditions, params) := filterConditions ents in
    if (length conditions =? 0)%nat then ret []
    else
      let query := FilterSql (join (js " AND ") conditions) params in
      try_catch
        (rows <- call (CQuery query) (fun t => pool t query) ;;
         ret (map DatabaseRow.speech_id rows))
        (fun error => ret [])
  end.

(* ===================================================================== *)
(** * The search *)
(* ===================================================================== *)

(** [// 拡張クエリ作成]: the topics are appended to the sub-query. *)
Definition expandedQuery (plan : QueryPlan) (subquery : jsstring) : jsstring :=
  match topics (entities plan) with
  | Some ((_ :: _) as ts) => subquery ++ js " " ++ join (js " ") ts
  | _ => subquery
  end.

(** [// 構造化フィルタの適用]: the statement of one sub-query. *)
Definition searchQuery (plan : QueryPlan) (topK : Z) (queryEmbedding : Vec) : M Sql :=
  if includes (enabledStrategies plan) (js "structured") then
    candidateIds <- applyStructuredFilter (entities plan) ;;
    if (0 <? length candidateIds)%nat
    then ret (SearchSql queryEmbedding (Some candidateIds) (num (8 # 10)) topK)
    else ret (SearchSql queryEmbedding None (num (6 # 10)) topK)
  else ret (SearchSql queryEmbedding None (num (7 # 10)) topK).

(** [s || d] on a nullable string. *)
Definition or_str (s : option jsstring) (d : jsstring) : jsstring :=
  match s with
  | Some ((_ :: _) as s) => s
  | _ => d
  end.

(** [parseFloat(s) || 0.0]; [None] is [NaN]. *)
Definition or_num (n : option number) (d : number) : number :=
  match n with
  | Some n => if Qc_eq_bool n (num 0) then d else n
  | None => d
  end.

(** [// 結果をSpeechResult形式に変換] *)
Definition toSpeechResult (env : Env) (row : DatabaseRow.t) : SpeechResult := {|
  speechId := DatabaseRow.speech_id row;
  speaker := or_str (DatabaseRow.speaker row) (js "未知の議員");
  party := or_str (DatabaseRow.speaker_group row) (js "?");
  date := or_str (DatabaseRow.date row) (js "2024-01-01");
  meeting := or_str (DatabaseRow.meeting_name row) (js "?");
  content := or_str (DatabaseRow.speech_text row) [];
  url := or_str (DatabaseRow.speech_url row) [];
  score := or_num (parseFloat env (DatabaseRow.similarity_score row)) (num 0)
|}.

(** The body of the loop over [plan.subqueries]. *)
Definition searchSubquery (plan : QueryPlan) (topK : Z) (subquery : jsstring)
    : M (list SpeechResult) :=
  env <- ask ;;
  match embedModel env, dbPool env with
  | Some getTextEmbedding, Some pool =>
    let text := expandedQuery plan subquery in
    queryEmbedding <- call (CEmbed text) (fun t => getTextEmbedding t text) ;;
    sql <- searchQuery plan topK queryEmbedding ;;
    rows <- call (CQuery sql) (fun t => pool t sql) ;;
    ret (map (toSpeechResult env) rows)
  | _, _ => throw (Error (js "Database or embedding model not initialized"))
  end.

(** [for (const subquery of plan.subqueries)], accumulating [allResults]. *)
Fixpoint searchAll (plan : QueryPlan) (topK : Z) (subqueries : list jsstring)
    (allResults : list SpeechResult) : M (list SpeechResult) :=
  match subqueries with
  | [] => ret allResults
  | subquery :: rest =>
    subqueryResults <- searchSubquery plan topK subquery ;;
    searchAll plan topK rest (allResults ++ subqueryResults)
  end.

(** [// 重複除去とスコア順ソート] *)
Definition dedupe (allResults : list SpeechResult) : list SpeechResult :=
  values (newMap (map (fun r => (speechId r, r)) allResults)).

Definition byScore (a b : SpeechResult) : number := (score b - score a)%Qc.

Definition uniqueResults (allResults : list SpeechResult) (topK : Z)
    : list SpeechResult :=
  slice0 (sort byScore (dedupe allResults)) topK.

(** [searchWithPlan(plan, topK)] *)
Definition searchWithPlan (plan : QueryPlan) (topK : Z) : M (list SpeechResult) :=
  env <- ask ;;
  match dbPool env, embedModel env with
  | Some _, Some _ =>
    try_catch
      (allResults <- searchAll plan topK (subqueries plan) [] ;;
       ret (uniqueResults allResults topK))
      (fun error => throw error)
  | _, _ => throw (Error (js "Database or embedding model not initialized"))
  end.

(** The aggregation of per-sub-query result sequences: [allResults] is
    their concatenation in the order of the sub-queries. *)
Definition aggregate (perSubquery : list (list SpeechResult)) (topK : Z)
    : list SpeechResult :=
  uniqueResults (concat perSubquery) topK.

(* ===================================================================== *)
(** * The answer *)
(* ===================================================================== *)

(** [arr.map((x, index) => f x index)] *)
Fixpoint mapi_from {A B} (i : nat) (f : A -> nat -> B) (l : list A) : list B :=
  match l with
  | [] => []
  | x :: rest => f x i :: mapi_from (S i) f rest
  end.

Definition mapi {A B} (f : A -> nat -> B) (l : list A) : list B := mapi_from 0 f l.

Definition contextBlock (result : SpeechResult) (index : nat) : jsstring :=
  js "【発言 " ++ digits (N.of_nat (index + 1)) ++ js "】" ++ nl
  ++ js "議員: " ++ speaker result ++ js " (" ++ party result ++ js ")" ++ nl
  ++ js "日付: " ++ date result ++ nl
  ++ js "会議: " ++ meeting result ++ nl
  ++ js "内容: " ++ content result ++ nl
  ++ js "出典: " ++ url result ++ nl
  ++ js "関連度: " ++ toFixed (score result) 3 ++ nl.

Definition answerPrompt (query : jsstring) (results : list SpeechResult) : jsstring :=
  let context := join nl (mapi contextBlock results) in
  join nl [
    js "以下の国会議事録から、質問に対して正確で詳細な回答を作成してください。";
    [];
    js "質問: " ++ query;
    [];
    js "国会議事録:";
    context;
    [];
    js "回答要件:";
    js "1. 発言者名と所属政党を明記する";
    js "2. 発言の日付と会議名を含める";
    js "3. 具体的な内容を引用する";
    js "4. 出典URLを提示する";
    js "5. 複数の発言がある場合は比較・整理する際も、各要点に対応する出典URLを明記する";
    js "6. まとめ部分でも、根拠となった発言の出典URLを含める";
    js "7. 事実に基づいて回答し、推測は避ける";
    [];
    js "重要: 議論の比較・整理やまとめの各項目にも、必ず根拠となった発言の出典URL（例: https://kokkai.ndl.go.jp/txt/...）を併記してください。";
    [];
    js "回答:"
  ].

Definition fallbackItem (result : SpeechResult) (index : nat) : jsstring :=
  digits (N.of_nat (index + 1)) ++ js ". " ++ speaker result
  ++ js " (" ++ party result ++ js ")" ++ nl
  ++ js "   日付: " ++ date result ++ nl
  ++ js "   会議: " ++ meeting result ++ nl
  ++ js "   内容: " ++ substring0 (content result) 300 ++ js "..." ++ nl
  ++ js "   出典: " ++ url result ++ nl
  ++ js "   関連度: " ++ toFixed (score result) 3.

(** The answer returned from the [catch] block of [generateAnswer]. *)
Definition fallbackAnswer (results : list SpeechResult) : jsstring :=
  js "検索結果に基づく情報:" ++ nl ++ nl
  ++ join (nl ++ nl) (mapi fallbackItem results).

(** [generateAnswer(query, results)] *)
Definition generateAnswer (query : jsstring) (results : list SpeechResult)
    : M jsstring :=
  env <- ask ;;
  match llm env with
  | None => throw (Error (js "LLM not initialized"))
  | Some complete =>
    let prompt := answerPrompt query results in
    try_catch
      (call (CComplete prompt) (fun t => complete t prompt))
      (fun error => ret (fallbackAnswer results))
  end.

(* ===================================================================== *)
(** * Vocabulary of the statements *)
(* ===================================================================== *)

(** The value a key holds after a run of [set]s: the last one written. *)
Definition lastFor {V} (k : jsstring) (entries : list (jsstring * V)) : option V :=
  option_map snd (find (fun kv => str_eqb (fst kv) k) (rev entries)).

(** The last hit for an id, in arrival order. *)
Definition lastHit (id : jsstring) (hits : list SpeechResult) : option SpeechResult :=
  find (fun r => str_eqb (speechId r) id) (rev hits).

(** The entries of a result list that carry an id. *)
Definition entriesFor (id : jsstring) (results : list SpeechResult) : list SpeechResult :=
  filter (fun r => str_eqb (speechId r) id) results.

(** [a] may stand before [b] in a list sorted by score, descending. *)
Definition desc (a b : SpeechResult) : Prop := (score b <= score a)%Qc.

(** The hits of a list that carry score [s], in their order. *)
Definition withScore (s : number) (hits : list SpeechResult) : list SpeechResult :=
  filter (fun r => Qc_eq_bool (score r) s) hits.

(** [hay] has [needle] as a contiguous part. *)
Definition contains (hay needle : jsstring) : Prop :=
  exists pre post, hay = pre ++ needle ++ post.




(** The property read is missing or [null]. *)
Definition absent (v : value) : Prop := v = None \/ v = Some JNull.

(* ===================================================================== *)
(** * Scenarios *)
(* ===================================================================== *)

Module Scenario.

(** A hit for speech [id] with similarity [q]. *)
Definition hit (id : string) (q : Q) : SpeechResult := {|
  speechId := js id;
  speaker := js "岸田文雄";
  party := js "自由民主党";
  date := js "2024-03-05";
  meeting := js "予算委員会";
  content := js "防衛費について";
  url := js "https://kokkai.ndl.go.jp/txt/" ++ js id;
  score := num q
|}.

(** Two sub-queries hit speech [S1], the first at 0.9, the second at 0.75. *)
Definition first_sub : list SpeechResult := [hit "S1" (9 # 10)].
Definition second_sub : list SpeechResult := [hit "S1" (75 # 100)].

(** Two sub-queries whose hits tie at 0.5. *)
Definition tie_a : list SpeechResult := [hit "A" (1 # 2)].
Definition tie_b : list SpeechResult := [hit "B" (1 # 2)].

(** Three distinct hits. *)
Definition three_hits : list SpeechResult :=
  [hit "S1" (5 # 10); hit "S2" (9 # 10); hit "S3" (7 # 10)].

(** A store row for speech [id] whose similarity prints as [sim]. *)
Definition row (id sim : string) : DatabaseRow.t := {|
  DatabaseRow.speech_id := js id;
  DatabaseRow.speaker := Some (js "岸田文雄");
  DatabaseRow.speaker_group := Some (js "自由民主党");
  DatabaseRow.date := Some (js "2024-03-05");
  DatabaseRow.meeting_name := None;
  DatabaseRow.speech_text := Some (js "防衛費について");
  DatabaseRow.speech_url := Some (js "https://kokkai.ndl.go.jp/txt/" ++ js id);
  DatabaseRow.similarity_score := js sim
|}.

Definition parseFloat_table (s : jsstring) : option number :=
  if str_eqb s (js "0.9") then Some (num (9 # 10))
  else if str_eqb s (js "0.75") then Some (num (75 # 100))
  else if str_eqb s (js "0.5") then Some (num (5 # 10))
  else None.

(** A world with the given completion service, embedding service and
    store; [JSON.parse] accepts [null] and one planner response. *)
Definition world
    (parse : jsstring -> jsstring + json)
    (complete : option (Trace -> jsstring -> Exn + jsstring))
    (pool : option (Trace -> Sql -> Exn + list DatabaseRow.t)) : Env := {|
  JSON_parse := parse;
  parseFloat := parseFloat_table;
  llm := complete;
  embedModel := Some (fun _ text => inr [num (inject_Z (Z.of_nat (length text)))]);
  dbPool := pool;
  getOpenAIClient := inl (Error (js "OPENAI_API_KEY is not set"));
  createQueryPlanPrompt := fun question => question;
  getQueryPlanSystemPrompt := js "planner";
  resolveModel := fun purpose => purpose
|}.

Definition no_parse (text : jsstring) : jsstring + json :=
  inl (js "Unexpected end of JSON input").

Definition timeout : Exn := Error (js "canceling statement due to statement timeout").

(** A store whose filter finds two speeches and whose searches succeed. *)
Definition store_ok (t : Trace) (sql : Sql) : Exn + list DatabaseRow.t :=
  match sql with
  | FilterSql _ _ => inr [row "S1" "0.9"; row "S2" "0.75"]
  | SearchSql _ _ _ _ => inr [row "S1" "0.9"]
  end.

(** A store whose filter finds nothing. *)
Definition store_no_candidates (t : Trace) (sql : Sql) : Exn + list DatabaseRow.t :=
  match sql with
  | FilterSql _ _ => inr []
  | SearchSql _ _ _ _ => inr [row "S1" "0.9"]
  end.

(** A store whose filter query fails. *)
Definition store_filter_down (t : Trace) (sql : Sql) : Exn + list DatabaseRow.t :=
  match sql with
  | FilterSql _ _ => inl timeout
  | SearchSql _ _ _ _ => inr [row "S1" "0.9"]
  end.

(** A store that times out on its second statement. *)
Definition store_second_down (t : Trace) (sql : Sql) : Exn + list DatabaseRow.t :=
  if length t =? 3 then inl timeout
  else match sql with
       | FilterSql _ _ => inr []
       | SearchSql v _ _ _ =>
         if list_eq_dec Qc_eq_dec v [num 3] then inr [row "S1" "0.9"]
         else inr [row "S2" "0.75"]
       end.

Definition no_entities : KokkaiEntities := {|
  speakers := None; parties := None; dateRange := None;
  meetings := None; topics := None; positions := None
|}.

Definition kishida : KokkaiEntities := {|
  speakers := Some [js "岸田"];
  parties := Some [];
  dateRange := Some {| start := js "2024-01-01"; end_ := js "2024-12-31" |};
  meetings := Some [js "予算委員会"];
  topics := Some [js "防衛費"; js "防衛予算"];
  positions := Some [js "総理大臣"]
|}.

Definition kishida_elsewhere : KokkaiEntities := {|
  speakers := Some [js "岸田"];
  parties := Some [];
  dateRange := Some {| start := js "2024-01-01"; end_ := js "2024-12-31" |};
  meetings := Some [js "法務委員会"];
  topics := Some [js "防衛費"; js "防衛予算"];
  positions := None
|}.

Definition plan_of (subs : list jsstring) (ents : KokkaiEntities)
    (strategies : list jsstring) : QueryPlan := {|
  originalQuestion := js "岸田総理の防衛費についての発言";
  subqueries := subs;
  entities := ents;
  enabledStrategies := strategies;
  confidence := num (8 # 10);
  estimatedComplexity := num 2
|}.

Definition structured_plan : QueryPlan :=
  plan_of [js "岸田総理 防衛費"] kishida [js "vector"; js "structured"].

Definition vector_plan : QueryPlan :=
  plan_of [js "abc"; js "abcd"; js "abcde"] no_entities [js "vector"].

(** A completion service that refuses every request. *)
Definition llm_down (t : Trace) (prompt : jsstring) : Exn + jsstring :=
  inl (Error (js "connect ECONNREFUSED 127.0.0.1:11434")).

Definition quoted (s : string) : jsstring := dq ++ js s ++ dq.

(** [{"subqueries":["防衛費","防衛予算","国防費","安全保障"],"confidence":1.5,"estimatedComplexity":9}] *)
Definition response_four : jsstring :=
  js "{" ++ quoted "subqueries" ++ js ":[" ++ quoted "防衛費" ++ js ","
  ++ quoted "防衛予算" ++ js "," ++ quoted "国防費" ++ js "," ++ quoted "安全保障"
  ++ js "]," ++ quoted "confidence" ++ js ":1.5,"
  ++ quoted "estimatedComplexity" ++ js ":9}".

Definition planData_four : json :=
  JObj [(js "subqueries",
         JArr [JStr (js "防衛費"); JStr (js "防衛予算"); JStr (js "国防費");
               JStr (js "安全保障")]);
        (js "confidence", JNum (num (15 # 10)));
        (js "estimatedComplexity", JNum (num 9))].

(** [{"subqueries":[],"confidence":0}] *)
Definition response_empty : jsstring :=
  js "{" ++ quoted "subqueries" ++ js ":[]," ++ quoted "confidence" ++ js ":0}".

Definition planData_empty : json :=
  JObj [(js "subqueries", JArr []); (js "confidence", JNum (num 0))].

(** [{"entities":{"speakers":["岸田文雄"]},"enabledStrategies":"vector"}] *)
Definition response_strategy_string : jsstring :=
  js "{" ++ quoted "entities" ++ js ":{" ++ quoted "speakers" ++ js ":["
  ++ quoted "岸田文雄" ++ js "]}," ++ quoted "enabledStrategies" ++ js ":"
  ++ quoted "vector" ++ js "}".

Definition planData_strategy_string : json :=
  JObj [(js "entities", JObj [(js "speakers", JArr [JStr (js "岸田文雄")])]);
        (js "enabledStrategies", JStr (js "vector"))].

(** [JSON.parse] on the responses above, on [{}] and on [null]. *)
Definition parse (text : jsstring) : jsstring + json :=
  if str_eqb text response_four then inr planData_four
  else if str_eqb text response_empty then inr planData_empty
  else if str_eqb text response_strategy_string then inr planData_strategy_string
  else if str_eqb text (js "{}") then inr (JObj [])
  else if str_eqb text (js "null") then inr JNull
  else inl (js "Unexpected token").

(** A completion service that answers every prompt with [text] and a
    trailing line break. *)
Definition llm_says (text : jsstring) (t : Trace) (prompt : jsstring)
    : Exn + jsstring :=
  inr (js " " ++ text ++ nl).

Definition question : jsstring := js "岸田総理の防衛費についての発言".


(** The plan made from [response_empty]. *)
Definition plan_empty : Dyn.QueryPlan := {|
  Dyn.originalQuestion := question;
  Dyn.subqueries := JArr [];
  Dyn.entities := {|
    Dyn.speakers := JArr []; Dyn.parties := JArr []; Dyn.topics := JArr [];
    Dyn.meetings := JArr []; Dyn.positions := JArr []; Dyn.dateRange := None
  |};
  Dyn.enabledStrategies := JArr [JStr (js "vector")];
  Dyn.confidence := JNum (num (1 # 2));
  Dyn.estimatedComplexity := JNum (num 2)
|}.

(** A world whose completion service answers with [text]. *)
Definition planner_world (text : jsstring) : Env :=
  world parse (Some (llm_says text)) None.

End Scenario.

(* ===================================================================== *)
(** * Console output and the composed search *)
(* ===================================================================== *)

(** The eight lines [formatResults] logs for one result. *)
Definition resultLines (result : SpeechResult) (index : nat) : list jsstring :=
  [ js "--- Result " ++ digits (N.of_nat (index + 1)) ++ js " ---";
    js "👤 Speaker: " ++ speaker result ++ js " (" ++ party result ++ js ")";
    js "📅 Date: " ++ date result;
    js "🏛️ Meeting: " ++ meeting result;
    js "⭐ Score: " ++ toFixed (score result) 3;
    js "🔗 URL: " ++ url result;
    js "💬 Content: " ++ substring0 (content result) 300
      ++ (if (300 <? length (content result)) then js "..." else []);
    [] ].

(** [formatResults(results)]: the arguments of its [console.log] calls, in
    order. *)
Definition formatResults (results : list SpeechResult) : list jsstring :=
  (nl ++ js "📋 Found " ++ digits (N.of_nat (length results)) ++ js " results:" ++ nl)
    :: concat (mapi resultLines results).

(** The run-time plan read through [interface QueryPlan]: arrays of
    strings, numbers, a [dateRange] that is missing or has string [start]
    and [end].  [None] when the value has another shape. *)
Fixpoint asStrings (items : list json) : option (list jsstring) :=
  match items with
  | [] => Some []
  | JStr s :: rest => option_map (cons s) (asStrings rest)
  | _ => None
  end.

Definition asStringArray (v : json) : option (list jsstring) :=
  match v with
  | JArr items => asStrings items
  | _ => None
  end.

Definition asDateRange (v : value) : option (option DateRange) :=
  match v with
  | None => Some None
  | Some (JObj props) =>
    match lookup props (js "start"), lookup props (js "end") with
    | Some (JStr s), Some (JStr e) => Some (Some {| start := s; end_ := e |})
    | _, _ => None
    end
  | Some _ => None
  end.

Definition asEntities (e : Dyn.KokkaiEntities) : option KokkaiEntities :=
  match asStringArray (Dyn.speakers e), asStringArray (Dyn.parties e),
        asDateRange (Dyn.dateRange e), asStringArray (Dyn.meetings e),
        asStringArray (Dyn.topics e), asStringArray (Dyn.positions e) with
  | Some sp, Some pa, Some dr, Some me, Some to, Some po =>
    Some {| speakers := Some sp; parties := Some pa; dateRange := dr;
            meetings := Some me; topics := Some to; positions := Some po |}
  | _, _, _, _, _, _ => None
  end.

Definition asQueryPlan (plan : Dyn.QueryPlan) : option QueryPlan :=
  match asStringArray (Dyn.subqueries plan), asEntities (Dyn.entities plan),
        asStringArray (Dyn.enabledStrategies plan),
        Dyn.confidence plan, Dyn.estimatedComplexity plan with
  | Some subs, Some ents, Some strategies, JNum c, JNum k =>
    Some {| originalQuestion := Dyn.originalQuestion plan;
            subqueries := subs;
            entities := ents;
            enabledStrategies := strategies;
            confidence := c;
            estimatedComplexity := k |}
  | _, _, _, _, _ => None
  end.

(** [search(query, topK)]: the plan of [planKokkaiQuery] is handed to
    [searchWithPlan] unchecked.  The outcome is [None] for a returned plan
    that is not a [QueryPlan]: the interface is not enforced at run time and
    says nothing of [searchWithPlan] on such a value. *)
Definition search (query : jsstring) (topK : Z)
    : Env -> Trace -> Trace * option (Exn + list SpeechResult) :=
  fun env t =>
    match planKokkaiQuery query env t with
    | (t', inl e) => (t', Some (inl e))
    | (t', inr plan) =>
      match asQueryPlan plan with
      | Some typed => let (t'', r) := searchWithPlan typed topK env t' in (t'', Some r)
      | None => (t', None)
      end
    end.

(* ===================================================================== *)
(** * Further vocabulary *)
(* ===================================================================== *)

(** An optional list, read as the code tests it: missing is empty. *)
Definition listOf {A} (o : option (list A)) : list A :=
  match o with Some l => l | None => [] end.

(** The [ILIKE] pattern pushed for a name. *)
Definition pattern (name : jsstring) : jsstring := js "%" ++ name ++ js "%".

(** The ids of a list in the order of their first appearance. *)
Definition firstSeen (ids : list jsstring) : list jsstring :=
  rev (nodup (list_eq_dec N.eq_dec) (rev ids)).

Definition isEmbed (c : Call) : bool :=
  match c with CEmbed _ => true | _ => false end.

Definition isFilter (c : Call) : bool :=
  match c with CQuery (FilterSql _ _) => true | _ => false end.

Definition isSearch (c : Call) : bool :=
  match c with CQuery (SearchSql _ _ _ _) => true | _ => false end.

Definition count (p : Call -> bool) (calls : list Call) : nat :=
  length (filter p calls).

(** What [searchWithPlan] may send out for a plan and a [topK]: the
    expanded text of one of the sub-queries to the embedding service, the
    filter statement of the plan's entities, or a search statement limited
    to [topK] that is either unrestricted at ceiling 0.6 or 0.7 or
    restricted to a non-empty id list at ceiling 0.8. *)
Definition sentBy (plan : QueryPlan) (topK : Z) (c : Call) : Prop :=
  match c with
  | CEmbed text =>
    exists subquery, In subquery (subqueries plan)
                     /\ text = expandedQuery plan subquery
  | CQuery (FilterSql where_ params) =>
    includes (enabledStrategies plan) (js "structured") = true
    /\ where_ = join (js " AND ") (fst (filterConditions (entities plan)))
    /\ params = snd (filterConditions (entities plan))
  | CQuery (SearchSql _ ids ceiling limit) =>
    limit = topK
    /\ match ids with
       | None =>
         if includes (enabledStrategies plan) (js "structured")
         then ceiling = num (6 # 10) else ceiling = num (7 # 10)
       | Some l => l <> [] /\ ceiling = num (8 # 10)
                   /\ includes (enabledStrategies plan) (js "structured") = true
       end
  | _ => False
  end.

(** The plan made from a response that has none of the plan's keys. *)
Definition defaultPlan (question : jsstring) : Dyn.QueryPlan := {|
  Dyn.originalQuestion := question;
  Dyn.subqueries := JArr [JStr question];
  Dyn.entities := {|
    Dyn.speakers := JArr []; Dyn.parties := JArr []; Dyn.topics := JArr [];
    Dyn.meetings := JArr []; Dyn.positions := JArr []; Dyn.dateRange := None
  |};
  Dyn.enabledStrategies := JArr [JStr (js "vector")];
  Dyn.confidence := JNum (num (1 # 2));
  Dyn.estimatedComplexity := JNum (num 2)
|}.

(* ===================================================================== *)
(** * Further scenarios *)
(* ===================================================================== *)

Module Fixture.

(** A hit whose content is the letter [a], [n] times. *)
Definition long_hit (id : string) (n : nat) : SpeechResult := {|
  speechId := js id;
  speaker := js "枝野幸男";
  party := js "立憲民主党";
  date := js "2024-02-01";
  meeting := js "本会議";
  content := repeat 97%N n;
  url := js "https://kokkai.ndl.go.jp/txt/" ++ js id;
  score := num (8 # 10)
|}.

(** A store row with every nullable column [null]. *)
Definition bare_row (id : string) : DatabaseRow.t := {|
  DatabaseRow.speech_id := js id;
  DatabaseRow.speaker := None;
  DatabaseRow.speaker_group := None;
  DatabaseRow.date := None;
  DatabaseRow.meeting_name := None;
  DatabaseRow.speech_text := None;
  DatabaseRow.speech_url := None;
  DatabaseRow.similarity_score := js "NaN"
|}.

(** A store that answers every statement with one bare row. *)
Definition store_bare (t : Trace) (sql : Sql) : Exn + list DatabaseRow.t :=
  inr [bare_row "S9"].

(** An embedding service that is down. *)
Definition embed_down (t : Trace) (text : jsstring) : Exn + Vec :=
  inl (Error (js "connect ECONNREFUSED 127.0.0.1:11434")).

(** A chat client that answers every request with [content]. *)
Definition chat_says (content : option jsstring) (t : Trace) (req : ChatRequest)
    : Exn + option jsstring :=
  inr content.

(** A world for both planners: the completion service and the chat client
    answer with the same text. *)
Definition both_planners (text : jsstring) : Env := {|
  JSON_parse := Scenario.parse;
  parseFloat := Scenario.parseFloat_table;
  llm := Some (Scenario.llm_says text);
  embedModel := None;
  dbPool := None;
  getOpenAIClient := inr (chat_says (Some (js " " ++ text)));
  createQueryPlanPrompt := fun question => js "質問: " ++ question;
  getQueryPlanSystemPrompt := js "planner";
  resolveModel := fun purpose => js "gpt-4o-mini"
|}.

(** A world whose embedding service is down. *)
Definition no_embedding : Env := {|
  JSON_parse := Scenario.no_parse;
  parseFloat := Scenario.parseFloat_table;
  llm := None;
  embedModel := Some embed_down;
  dbPool := Some Scenario.store_ok;
  getOpenAIClient := inl (Error (js "OPENAI_API_KEY is not set"));
  createQueryPlanPrompt := fun question => question;
  getQueryPlanSystemPrompt := js "planner";
  resolveModel := fun purpose => purpose
|}.

Definition only_parties : KokkaiEntities := {|
  speakers := None;
  parties := Some [js "自民党"; js "立憲民主党"];
  dateRange := None;
  meetings := None; topics := None; positions := None
|}.

Definition other_parties : KokkaiEntities := {|
  speakers := Some [];
  parties := Some [js "公明党"; js "x' OR 1=1 --"];
  dateRange := None;
  meetings := None; topics := None; positions := None
|}.

End Fixture.

(* ===================================================================== *)
(** * Properties of the runtime operations *)
(* ===================================================================== *)

Lemma str_eqb_eq a b : str_eqb a b = true <-> a = b.
Proof. unfold str_eqb. destruct (list_eq_dec N.eq_dec a b); split; congruence. Qed.

Lemma str_eqb_refl a : str_eqb a a = true.
Proof. now apply str_eqb_eq. Qed.

Lemma str_eqb_neq a b : str_eqb a b = false <-> a <> b.
Proof. unfold str_eqb. destruct (list_eq_dec N.eq_dec a b); split; congruence. Qed.

Lemma str_eqb_sym a b : str_eqb a b = str_eqb b a.
Proof.
  destruct (str_eqb b a) eqn:E.
  - apply str_eqb_eq in E. subst. apply str_eqb_refl.
  - apply str_eqb_neq in E. apply str_eqb_neq. congruence.
Qed.

Ltac str_cases a b :=
  let E := fresh "E" in
  destruct (str_eqb a b) eqn:E;
  [apply str_eqb_eq in E | apply str_eqb_neq in E].

Example toFixed_0_9 : toFixed (num (9 # 10)) 3 = js "0.900".
Proof. vm_compute. reflexivity. Qed.

Example toFixed_neg : toFixed (num (-(1 # 10000))) 3 = js "-0.000".
Proof. vm_compute. reflexivity. Qed.

Example toFixed_round : toFixed (num (12345 # 10000)) 2 = js "1.23".
Proof. vm_compute. reflexivity. Qed.

Example toFixed_half : toFixed (num (5 # 10000)) 3 = js "0.001".
Proof. vm_compute. reflexivity. Qed.

Example js_code_units : js "日付: a" = [26085; 20184; 58; 32; 97]%N.
Proof. vm_compute. reflexivity. Qed.

Example trim_example : trim (js "  {} ") = js "{}".
Proof. vm_compute. reflexivity. Qed.

(** ** [slice] *)

Lemma slice0_prefix {A} (l : list A) (k : Z) : exists n, slice0 l k = firstn n l.
Proof. unfold slice0. destruct (k <? 0)%Z; eauto. Qed.

Lemma slice0_length {A} (l : list A) (k : Z) :
  (0 <= k)%Z -> (Z.of_nat (length (slice0 l k)) <= k)%Z.
Proof.
  intros Hk. unfold slice0.
  destruct (Z.ltb_spec k 0); [lia|].
  rewrite length_firstn. lia.
Qed.

Lemma slice0_all {A} (l : list A) (k : Z) :
  (Z.of_nat (length l) <= k)%Z -> slice0 l k = l.
Proof.
  intros Hk. unfold slice0.
  destruct (Z.ltb_spec k 0); [lia|].
  apply firstn_all2. lia.
Qed.

Lemma firstn_incl_In {A} n (l : list A) x : In x (firstn n l) -> In x l.
Proof.
  intros H. rewrite <- (firstn_skipn n l). apply in_or_app. now left.
Qed.

Lemma firstn_NoDup {A} n (l : list A) : NoDup l -> NoDup (firstn n l).
Proof.
  intros H. rewrite <- (firstn_skipn n l) in H.
  now apply NoDup_app_remove_r in H.
Qed.

Lemma firstn_StronglySorted {A} (R : A -> A -> Prop) n (l : list A) :
  StronglySorted R l -> StronglySorted R (firstn n l).
Proof.
  intros H. revert n. induction H as [|a l Hs IH Hall]; intros [|n]; simpl;
    try constructor; auto.
  rewrite Forall_forall in *. intros x Hx. apply Hall.
  eapply firstn_incl_In; eauto.
Qed.

(** ** [Map] *)

Section MapFacts.
Context {V : Type}.
Implicit Types (m : @Map V) (k : jsstring) (v : V).

Lemma get_set m k v k' :
  get (set m k v) k' = if str_eqb k k' then Some v else get m k'.
Proof.
  induction m as [|[k0 v0] m IH]; simpl.
  - reflexivity.
  - str_cases k0 k; simpl.
    + subst. destruct (str_eqb k k'); reflexivity.
    + rewrite IH. str_cases k0 k'; [|reflexivity].
      subst. str_cases k k'; congruence.
Qed.

Lemma keys_set m k v :
  map fst (set m k v) =
  if existsb (str_eqb k) (map fst m) then map fst m else map fst m ++ [k].
Proof.
  induction m as [|[k0 v0] m IH]; simpl.
  - reflexivity.
  - rewrite (str_eqb_sym k k0). destruct (str_eqb k0 k); simpl.
    + reflexivity.
    + rewrite IH. destruct (existsb _ _); reflexivity.
Qed.

Lemma existsb_str_eqb k ks : existsb (str_eqb k) ks = true <-> In k ks.
Proof.
  rewrite existsb_exists. split.
  - intros (x & Hx & E). apply str_eqb_eq in E. now subst.
  - intros H. exists k. split; [easy | apply str_eqb_refl].
Qed.

Lemma keys_set_NoDup m k v :
  NoDup (map fst m) -> NoDup (map fst (set m k v)).
Proof.
  intros H. rewrite keys_set.
  destruct (existsb (str_eqb k) (map fst m)) eqn:E; [assumption|].
  apply NoDup_app; try assumption.
  - repeat constructor; simpl; tauto.
  - intros x Hx [<-|[]].
    apply existsb_str_eqb in Hx. congruence.
Qed.

Lemma get_In m k v : NoDup (map fst m) -> (In (k, v) m <-> get m k = Some v).
Proof.
  induction m as [|[k0 v0] m IH]; simpl; intros H.
  - split; [tauto | discriminate].
  - inversion H as [|? ? Hnot Hnd]; subst.
    str_cases k0 k.
    + subst. split.
      * intros [E|Hin]; [congruence|].
        exfalso. apply Hnot. now apply (in_map fst) in Hin.
      * intros E. left. congruence.
    + rewrite <- (IH Hnd). split; [intros [E'|?]; [congruence | assumption] | tauto].
Qed.

Lemma lastFor_snoc k (entries : list (jsstring * V)) k' v :
  lastFor k (entries ++ [(k', v)]) =
  if str_eqb k' k then Some v else lastFor k entries.
Proof.
  unfold lastFor. rewrite rev_app_distr. simpl.
  destruct (str_eqb k' k); reflexivity.
Qed.

Lemma fold_set_snoc (entries : list (jsstring * V)) (kv : jsstring * V) (m0 : @Map V) :
  fold_left (fun m kv => set m (fst kv) (snd kv)) (entries ++ [kv]) m0 =
  set (fold_left (fun m kv => set m (fst kv) (snd kv)) entries m0) (fst kv) (snd kv).
Proof. now rewrite fold_left_app. Qed.

Lemma newMap_snoc (entries : list (jsstring * V)) (kv : jsstring * V) :
  newMap (entries ++ [kv]) = set (newMap entries) (fst kv) (snd kv).
Proof. apply fold_set_snoc. Qed.

Lemma newMap_NoDup entries : NoDup (map fst (@newMap V entries)).
Proof.
  induction entries as [|kv entries IH] using rev_ind.
  - constructor.
  - rewrite newMap_snoc. now apply keys_set_NoDup.
Qed.

Lemma get_newMap (entries : list (jsstring * V)) k : get (newMap entries) k = lastFor k entries.
Proof.
  induction entries as [|[k' v] entries IH] using rev_ind.
  - reflexivity.
  - rewrite newMap_snoc, get_set, lastFor_snoc, IH. reflexivity.
Qed.

Lemma newMap_In (entries : list (jsstring * V)) k v :
  In (k, v) (newMap entries) <-> lastFor k entries = Some v.
Proof. rewrite <- get_newMap. apply get_In, newMap_NoDup. Qed.

Lemma In_keys_newMap (entries : list (jsstring * V)) k :
  In k (map fst (newMap entries)) <-> In k (map fst entries).
Proof.
  revert k. induction entries as [|[k' v] entries IH] using rev_ind; intros k.
  - reflexivity.
  - rewrite newMap_snoc, keys_set, map_app, in_app_iff. simpl.
    destruct (existsb _ _) eqn:E.
    + apply existsb_str_eqb in E. rewrite IH. rewrite IH in E.
      split; [tauto | intros [?|[<-|[]]]; assumption].
    + rewrite in_app_iff, IH. reflexivity.
Qed.
End MapFacts.

(** ** [sort] by score *)

Lemma insert_perm {A} (cmp : A -> A -> number) x l :
  Permutation (x :: l) (insert cmp x l).
Proof.
  induction l as [|y l IH]; simpl.
  - reflexivity.
  - destruct (Qclt_le_dec 0 (cmp x y)).
    + rewrite perm_swap. now constructor.
    + reflexivity.
Qed.

Lemma sort_perm {A} (cmp : A -> A -> number) l : Permutation l (sort cmp l).
Proof.
  induction l as [|x l IH]; simpl.
  - constructor.
  - rewrite <- insert_perm. now constructor.
Qed.

Lemma byScore_pos a b : (0 < byScore a b)%Qc <-> (score a < score b)%Qc.
Proof. unfold byScore, Qcminus. symmetry. apply Qclt_minus_iff. Qed.

Lemma desc_trans a b c : desc a b -> desc b c -> desc a c.
Proof. unfold desc. intros H1 H2. eapply Qcle_trans; eauto. Qed.

Lemma insert_desc x l :
  StronglySorted desc l -> StronglySorted desc (insert byScore x l).
Proof.
  induction 1 as [|y l Hs IH Hall]; simpl.
  - repeat constructor.
  - destruct (Qclt_le_dec 0 (byScore x y)) as [Hlt|Hle].
    + apply byScore_pos in Hlt. constructor; [assumption|].
      rewrite Forall_forall in *. intros z Hz.
      apply (Permutation_in _ (Permutation_sym (insert_perm byScore x l))) in Hz.
      destruct Hz as [<-|Hz]; [|auto].
      unfold desc. now apply Qclt_le_weak.
    + assert (Hxy : desc x y).
      { unfold desc. apply Qcnot_lt_le. intros Hlt.
        apply byScore_pos in Hlt. now apply Qcle_not_lt in Hle. }
      constructor; [now constructor|].
      constructor; [assumption|].
      rewrite Forall_forall in *. intros z Hz. eapply desc_trans; eauto.
Qed.

Lemma sort_desc l : StronglySorted desc (sort byScore l).
Proof.
  induction l as [|x l IH]; simpl; [constructor | now apply insert_desc].
Qed.

(** Two arrangements of the same hits, both sorted, are the same list when
    no two different hits share a score. *)
Lemma sorted_perm_unique l1 l2 :
  Permutation l1 l2 ->
  StronglySorted desc l1 -> StronglySorted desc l2 ->
  (forall a b, In a l1 -> In b l1 -> score a = score b -> a = b) ->
  l1 = l2.
Proof.
  revert l2. induction l1 as [|a t1 IH]; intros l2 Hp H1 H2 Hinj.
  - apply Permutation_nil in Hp. now subst.
  - destruct l2 as [|b t2].
    { apply Permutation_sym, Permutation_nil in Hp. discriminate. }
    inversion H1 as [|? ? Hs1 Ha]; subst.
    inversion H2 as [|? ? Hs2 Hb]; subst.
    rewrite Forall_forall in Ha, Hb.
    assert (Hab : a = b).
    { assert (Hina : In a (b :: t2)) by (eapply Permutation_in; eauto; now left).
      assert (Hinb : In b (a :: t1))
        by (eapply Permutation_in; [apply Permutation_sym|]; eauto; now left).
      destruct Hina as [->|Hina]; [reflexivity|].
      destruct Hinb as [->|Hinb]; [reflexivity|].
      apply Hinj; [now left | now right |].
      apply Qcle_antisym; [apply (Hb _ Hina) | apply (Ha _ Hinb)]. }
    subst b. f_equal.
    apply IH; auto.
    + eapply Permutation_cons_inv; eauto.
    + intros x y Hx Hy. apply Hinj; now right.
Qed.

(** [sort] is stable: hits of equal score keep their order.  A sorted
    list that keeps the order of equal scores is the result of [sort],
    whatever the algorithm that produced it. *)
Lemma Qc_eq_bool_iff a b : Qc_eq_bool a b = true <-> a = b.
Proof.
  split; [apply Qc_eq_bool_correct|].
  intros ->. unfold Qc_eq_bool. destruct (Qc_eq_dec b b); congruence.
Qed.

Lemma insert_stable x l s :
  withScore s (insert byScore x l) = withScore s (x :: l).
Proof.
  induction l as [|y l IH]; [reflexivity|].
  cbn [insert]. destruct (Qclt_le_dec 0 (byScore x y)) as [Hlt|Hle]; [|reflexivity].
  apply byScore_pos in Hlt.
  unfold withScore in *. cbn [filter] in *. rewrite IH.
  destruct (Qc_eq_bool (score x) s) eqn:Ex, (Qc_eq_bool (score y) s) eqn:Ey;
    try reflexivity.
  apply Qc_eq_bool_iff in Ex, Ey. rewrite Ex, Ey in Hlt.
  exfalso. eapply Qclt_not_eq; eauto.
Qed.

Lemma sort_stable l s : withScore s (sort byScore l) = withScore s l.
Proof.
  induction l as [|x l IH]; [reflexivity|].
  cbn [sort fold_right]. fold (sort byScore l).
  rewrite insert_stable. unfold withScore in *. cbn [filter]. now rewrite IH.
Qed.

Lemma withScore_head a l : withScore (score a) (a :: l) = a :: withScore (score a) l.
Proof.
  unfold withScore. cbn [filter].
  now rewrite (proj2 (Qc_eq_bool_iff (score a) (score a)) eq_refl).
Qed.

Lemma withScore_In s l r : In r (withScore s l) <-> In r l /\ score r = s.
Proof. unfold withScore. rewrite filter_In, Qc_eq_bool_iff. reflexivity. Qed.

Lemma stable_sorted_unique l1 l2 :
  StronglySorted desc l1 -> StronglySorted desc l2 ->
  (forall s, withScore s l1 = withScore s l2) ->
  l1 = l2.
Proof.
  revert l2. induction l1 as [|a t1 IH]; intros l2 H1 H2 Hs.
  - destruct l2 as [|b t2]; [reflexivity|].
    specialize (Hs (score b)). rewrite withScore_head in Hs. discriminate.
  - destruct l2 as [|b t2].
    { specialize (Hs (score a)). rewrite withScore_head in Hs. discriminate. }
    inversion H1 as [|? ? Hs1 Ha]; subst.
    inversion H2 as [|? ? Hs2 Hb]; subst.
    rewrite Forall_forall in Ha, Hb.
    assert (Hsc : score a = score b).
    { apply Qcle_antisym.
      - assert (Hin : In a (withScore (score a) (b :: t2))).
        { rewrite <- Hs, withScore_head. now left. }
        apply withScore_In in Hin. destruct Hin as [[->|Hin] _];
          [apply Qcle_refl | apply (Hb _ Hin)].
      - assert (Hin : In b (withScore (score b) (a :: t1))).
        { rewrite Hs, withScore_head. now left. }
        apply withScore_In in Hin. destruct Hin as [[->|Hin] _];
          [apply Qcle_refl | apply (Ha _ Hin)]. }
    assert (Hab : a = b).
    { pose proof (Hs (score a)) as E. rewrite withScore_head in E.
      rewrite Hsc, withScore_head in E. congruence. }
    subst b. f_equal. apply IH; auto.
    intros s. specialize (Hs s). unfold withScore in *. cbn [filter] in Hs.
    destruct (Qc_eq_bool (score a) s); congruence.
Qed.

Theorem sort_characterised l sorted :
  StronglySorted desc sorted ->
  (forall s, withScore s sorted = withScore s l) ->
  sorted = sort byScore l.
Proof.
  intros Hd Hs. apply stable_sorted_unique; auto using sort_desc.
  intros s. now rewrite sort_stable.
Qed.

(** ** [dedupe] *)

Lemma lastFor_lastHit id hits :
  lastFor id (map (fun r => (speechId r, r)) hits) = lastHit id hits.
Proof.
  unfold lastFor, lastHit. rewrite <- map_rev.
  induction (rev hits) as [|r l IH]; simpl.
  - reflexivity.
  - destruct (str_eqb (speechId r) id); [reflexivity | assumption].
Qed.

Lemma lastHit_some id hits r :
  lastHit id hits = Some r -> In r hits /\ speechId r = id.
Proof.
  unfold lastHit. intros H. apply find_some in H. destruct H as [Hin E].
  apply in_rev in Hin. apply str_eqb_eq in E. tauto.
Qed.

Lemma lastHit_app_r id l1 l2 :
  In id (map speechId l2) -> lastHit id (l1 ++ l2) = lastHit id l2.
Proof.
  unfold lastHit. rewrite rev_app_distr. intros Hin.
  apply in_map_iff in Hin. destruct Hin as (r & E & Hr).
  apply in_rev in Hr. revert Hr.
  induction (rev l2) as [|x l IH]; simpl; [tauto|].
  intros [->|Hr].
  - rewrite E, str_eqb_refl. reflexivity.
  - destruct (str_eqb (speechId x) id); [reflexivity | auto].
Qed.

Lemma dedupe_In hits r :
  In r (dedupe hits) <-> lastHit (speechId r) hits = Some r.
Proof.
  unfold dedupe, values. rewrite in_map_iff. split.
  - intros ([k r'] & E & Hin). simpl in E. subst r'.
    apply newMap_In in Hin. rewrite lastFor_lastHit in Hin.
    destruct (lastHit_some _ _ Hin) as [_ <-]. assumption.
  - intros H. exists (speechId r, r). split; [reflexivity|].
    apply newMap_In. now rewrite lastFor_lastHit.
Qed.

Lemma dedupe_incl hits r : In r (dedupe hits) -> In r hits.
Proof. intros H. apply dedupe_In, lastHit_some in H. tauto. Qed.

Lemma dedupe_ids hits :
  map speechId (dedupe hits) =
  map fst (newMap (map (fun r => (speechId r, r)) hits)).
Proof.
  unfold dedupe, values. rewrite map_map.
  apply map_ext_in. intros [k r] Hin. simpl.
  apply newMap_In in Hin. rewrite lastFor_lastHit in Hin.
  now destruct (lastHit_some _ _ Hin).
Qed.

Lemma dedupe_NoDup_ids hits : NoDup (map speechId (dedupe hits)).
Proof. rewrite dedupe_ids. apply newMap_NoDup. Qed.

Lemma dedupe_NoDup hits : NoDup (dedupe hits).
Proof. eapply NoDup_map_inv, dedupe_NoDup_ids. Qed.

Lemma dedupe_has_id hits id :
  In id (map speechId (dedupe hits)) <-> In id (map speechId hits).
Proof.
  rewrite dedupe_ids, In_keys_newMap, map_map. simpl. reflexivity.
Qed.

(* ===================================================================== *)
(** * The aggregation *)
(* ===================================================================== *)

Lemma uniqueResults_prefix hits topK :
  exists n, uniqueResults hits topK = firstn n (sort byScore (dedupe hits)).
Proof. apply slice0_prefix. Qed.

Lemma sorted_dedupe_ids hits :
  NoDup (map speechId (sort byScore (dedupe hits))).
Proof.
  eapply Permutation_NoDup; [|apply dedupe_NoDup_ids].
  apply Permutation_map, sort_perm.
Qed.

Lemma uniqueResults_In hits topK r :
  In r (uniqueResults hits topK) -> In r (dedupe hits).
Proof.
  destruct (uniqueResults_prefix hits topK) as [n ->]. intros H.
  apply firstn_incl_In in H.
  eapply Permutation_in; [apply Permutation_sym, sort_perm | exact H].
Qed.

Lemma uniqueResults_NoDup_ids hits topK :
  NoDup (map speechId (uniqueResults hits topK)).
Proof.
  destruct (uniqueResults_prefix hits topK) as [n ->].
  rewrite <- firstn_map. apply firstn_NoDup, sorted_dedupe_ids.
Qed.

Lemma uniqueResults_sorted hits topK :
  StronglySorted desc (uniqueResults hits topK).
Proof.
  destruct (uniqueResults_prefix hits topK) as [n ->].
  apply firstn_StronglySorted, sort_desc.
Qed.

(** C3. Whatever the per-sub-query result sequences and whatever [topK],
    the aggregated output has no two entries with the same [speechId] and
    is sorted by score, descending; for a result count [topK] (not
    negative) its length is at most [topK]. *)
Theorem aggregate_unique_sorted_bounded
    (perSubquery : list (list SpeechResult)) (topK : Z) :
  NoDup (map speechId (aggregate perSubquery topK))
  /\ StronglySorted desc (aggregate perSubquery topK)
  /\ ((0 <= topK)%Z ->
      (Z.of_nat (length (aggregate perSubquery topK)) <= topK)%Z).
Proof.
  unfold aggregate. repeat split.
  - apply uniqueResults_NoDup_ids.
  - apply uniqueResults_sorted.
  - intros Hk. now apply slice0_length.
Qed.

Lemma aggregate_unique_sorted_bounded_witness :
  (Z.of_nat (length (aggregate [Scenario.three_hits; Scenario.first_sub] 2)) <= 2)%Z.
Proof.
  apply (proj2 (proj2
    (aggregate_unique_sorted_bounded [Scenario.three_hits; Scenario.first_sub] 2))).
  lia.
Defined.

Example aggregate_three_hits :
  map (fun r => (speechId r, score r))
      (aggregate [Scenario.three_hits; Scenario.first_sub] 2)
  = [(js "S1", num (9 # 10)); (js "S2", num (9 # 10))].
Proof. vm_compute. reflexivity. Qed.

Lemma entriesFor_absent id l :
  ~ In id (map speechId l) -> entriesFor id l = [].
Proof.
  induction l as [|r l IH]; simpl; intros H.
  - reflexivity.
  - str_cases (speechId r) id; [tauto | apply IH; tauto].
Qed.

Lemma entriesFor_at_most_one id l :
  NoDup (map speechId l) -> length (entriesFor id l) <= 1.
Proof.
  induction l as [|r l IH]; simpl; intros H.
  - lia.
  - inversion H as [|? ? Hnot Hnd]; subst.
    str_cases (speechId r) id.
    + subst. rewrite entriesFor_absent by assumption. simpl. lia.
    + auto.
Qed.

Lemma entriesFor_exactly_one id l :
  NoDup (map speechId l) -> In id (map speechId l) ->
  length (entriesFor id l) = 1.
Proof.
  induction l as [|r l IH]; simpl; intros H Hin.
  - tauto.
  - inversion H as [|? ? Hnot Hnd]; subst.
    str_cases (speechId r) id.
    + subst. rewrite entriesFor_absent by assumption. reflexivity.
    + apply IH; tauto.
Qed.

(** [dedupe] keeps one hit per distinct id. *)
Lemma dedupe_length hits :
  length (dedupe hits) = length (nodup (list_eq_dec N.eq_dec) (map speechId hits)).
Proof.
  rewrite <- (length_map speechId).
  apply Permutation_length, NoDup_Permutation.
  - apply dedupe_NoDup_ids.
  - apply NoDup_nodup.
  - intros id. rewrite nodup_In. apply dedupe_has_id.
Qed.

(** C2, as the code has it.  When two sub-query result sequences both
    contain a hit for the same [speechId], the aggregation yields at most
    one entry for that id, exactly one when [topK] is at least the number of
    distinct ids, and that entry is the hit seen last (the last one of the
    later sub-query), whatever its score. *)
Theorem duplicate_keeps_last_seen
    (rs1 rs2 : list SpeechResult) (h1 h2 : SpeechResult) (topK : Z) :
  In h1 rs1 -> In h2 rs2 -> speechId h1 = speechId h2 ->
  length (entriesFor (speechId h1) (aggregate [rs1; rs2] topK)) <= 1
  /\ ((Z.of_nat (length (nodup (list_eq_dec N.eq_dec)
                          (map speechId (rs1 ++ rs2)))) <= topK)%Z ->
      length (entriesFor (speechId h1) (aggregate [rs1; rs2] topK)) = 1)
  /\ (forall r, In r (aggregate [rs1; rs2] topK) ->
                speechId r = speechId h1 ->
                lastHit (speechId h1) rs2 = Some r).
Proof.
  intros H1 H2 E. unfold aggregate. simpl. rewrite app_nil_r.
  repeat split.
  - apply entriesFor_at_most_one, uniqueResults_NoDup_ids.
  - intros Hk. unfold uniqueResults.
    rewrite slice0_all.
    + apply entriesFor_exactly_one; [apply sorted_dedupe_ids|].
      eapply Permutation_in; [apply Permutation_map, sort_perm|].
      apply dedupe_has_id, in_map, in_or_app. now left.
    + rewrite <- (Permutation_length (sort_perm byScore _)), dedupe_length.
      assumption.
  - intros r Hr Hid.
    apply uniqueResults_In, dedupe_In in Hr.
    rewrite Hid in Hr. rewrite lastHit_app_r in Hr; [assumption|].
    rewrite E. now apply in_map.
Qed.

Lemma duplicate_keeps_last_seen_witness :
  length (entriesFor (js "S1")
            (aggregate [Scenario.first_sub; Scenario.second_sub] 5)) = 1
  /\ forall r, In r (aggregate [Scenario.first_sub; Scenario.second_sub] 5) ->
               speechId r = js "S1" ->
               lastHit (js "S1") Scenario.second_sub = Some r.
Proof.
  destruct (@duplicate_keeps_last_seen
              Scenario.first_sub Scenario.second_sub
              (Scenario.hit "S1" (9 # 10)) (Scenario.hit "S1" (75 # 100)) 5)
    as (_ & Hone & Hlast).
  - simpl. left. reflexivity.
  - simpl. left. reflexivity.
  - reflexivity.
  - split.
    + apply Hone. vm_compute. discriminate.
    + exact Hlast.
Defined.

(** C2, as stated, fails: speech [S1] is hit at 0.9 by the first sub-query
    and at 0.75 by the second; the one [S1] entry of the output carries
    0.75, not the highest score 0.9. *)
Lemma highest_score_not_retained :
  map (fun r => (speechId r, score r))
      (aggregate [Scenario.first_sub; Scenario.second_sub] 5)
    = [(js "S1", num (75 # 100))]
  /\ ~ (exists r, In r (aggregate [Scenario.first_sub; Scenario.second_sub] 5)
                  /\ speechId r = js "S1" /\ score r = num (9 # 10)).
Proof.
  assert (Hout : aggregate [Scenario.first_sub; Scenario.second_sub] 5
                 = [Scenario.hit "S1" (75 # 100)]) by (vm_compute; reflexivity).
  rewrite Hout. split.
  - vm_compute. reflexivity.
  - intros (r & [<-|[]] & _ & Hs).
    apply (f_equal this) in Hs. vm_compute in Hs. discriminate.
Qed.

(** ** Arrival order *)

Lemma concat_perm {A} (ls1 ls2 : list (list A)) :
  Permutation ls1 ls2 -> Permutation (concat ls1) (concat ls2).
Proof.
  induction 1 as [|x l l' _ IH|x y l|l l' l'' _ IH1 _ IH2]; simpl.
  - constructor.
  - now apply Permutation_app_head.
  - rewrite !app_assoc. apply Permutation_app_tail, Permutation_app_comm.
  - now transitivity (concat l').
Qed.

(** When hits that share an id are one and the same hit, [dedupe] keeps
    every hit once. *)
Lemma dedupe_In_copies hits r :
  (forall a b, In a hits -> In b hits -> speechId a = speechId b -> a = b) ->
  (In r (dedupe hits) <-> In r hits).
Proof.
  intros Hsame. split; [apply dedupe_incl|].
  intros Hr.
  assert (Hid : In (speechId r) (map speechId (dedupe hits)))
    by now apply dedupe_has_id, in_map.
  apply in_map_iff in Hid. destruct Hid as (r' & E & Hr').
  assert (r' = r) by (apply Hsame; auto using dedupe_incl).
  now subst.
Qed.

Lemma uniqueResults_perm hits1 hits2 topK :
  Permutation hits1 hits2 ->
  (forall a b, In a hits1 -> In b hits1 -> speechId a = speechId b -> a = b) ->
  (forall a b, In a hits1 -> In b hits1 -> score a = score b -> a = b) ->
  uniqueResults hits1 topK = uniqueResults hits2 topK.
Proof.
  intros Hp Hid Hsc. unfold uniqueResults. f_equal.
  assert (Hid2 : forall a b, In a hits2 -> In b hits2 ->
                             speechId a = speechId b -> a = b).
  { intros a b Ha Hb. apply Hid; eapply Permutation_in;
      try apply Permutation_sym; eauto. }
  assert (Hd : Permutation (dedupe hits1) (dedupe hits2)).
  { apply NoDup_Permutation; try apply dedupe_NoDup.
    intros r. rewrite !dedupe_In_copies by assumption.
    split; apply Permutation_in; [|apply Permutation_sym]; assumption. }
  apply sorted_perm_unique; try apply sort_desc.
  - rewrite <- (sort_perm byScore (dedupe hits1)).
    rewrite <- (sort_perm byScore (dedupe hits2)). exact Hd.
  - intros a b Ha Hb.
    apply Hsc; apply dedupe_incl;
      (eapply Permutation_in; [apply Permutation_sym, sort_perm | eassumption]).
Qed.

(** C6, as the code has it.  The aggregated output is the same for every
    arrival order of the sub-query result sequences provided that hits
    sharing a [speechId] are identical and different hits have different
    scores. *)
Theorem aggregate_order_independent
    (perSubquery arrived : list (list SpeechResult)) (topK : Z) :
  Permutation perSubquery arrived ->
  (forall a b, In a (concat perSubquery) -> In b (concat perSubquery) ->
               speechId a = speechId b -> a = b) ->
  (forall a b, In a (concat perSubquery) -> In b (concat perSubquery) ->
               score a = score b -> a = b) ->
  aggregate perSubquery topK = aggregate arrived topK.
Proof.
  intros Hp Hid Hsc. unfold aggregate.
  apply uniqueResults_perm; auto using concat_perm.
Qed.

Lemma aggregate_order_independent_witness :
  aggregate [[Scenario.hit "S1" (5 # 10)];
             [Scenario.hit "S2" (9 # 10); Scenario.hit "S3" (7 # 10)]] 5
  = aggregate [[Scenario.hit "S2" (9 # 10); Scenario.hit "S3" (7 # 10)];
               [Scenario.hit "S1" (5 # 10)]] 5.
Proof.
  apply aggregate_order_independent.
  - apply perm_swap.
  - intros a b Ha Hb E. cbn [concat app In] in Ha, Hb.
    destruct Ha as [<-|[<-|[<-|[]]]], Hb as [<-|[<-|[<-|[]]]];
      solve [reflexivity | vm_compute in E; discriminate].
  - intros a b Ha Hb E. cbn [concat app In] in Ha, Hb.
    destruct Ha as [<-|[<-|[<-|[]]]], Hb as [<-|[<-|[<-|[]]]];
      solve [reflexivity
            | apply (f_equal this) in E; vm_compute in E; discriminate].
Defined.

(** C6, as stated, fails.  With a speech hit at two different scores the
    later arrival is kept, and with two hits at the same score the earlier
    arrival comes first: swapping the two sub-query result sequences
    changes the output in both cases. *)
Lemma aggregate_depends_on_arrival_order :
  aggregate [Scenario.first_sub; Scenario.second_sub] 5
    <> aggregate [Scenario.second_sub; Scenario.first_sub] 5
  /\ aggregate [Scenario.tie_a; Scenario.tie_b] 5
    <> aggregate [Scenario.tie_b; Scenario.tie_a] 5.
Proof.
  split; intros H.
  - apply (f_equal (map (fun r => this (score r)))) in H.
    vm_compute in H. discriminate.
  - apply (f_equal (map speechId)) in H.
    vm_compute in H. discriminate.
Qed.

(* ===================================================================== *)
(** * The structured filter and the choice of the search statement *)
(* ===================================================================== *)

Lemma try_catch_rethrow {A} (body : M A) :
  forall env t, try_catch body (fun error => throw error) env t = body env t.
Proof.
  intros env t. unfold try_catch, throw.
  destruct (body env t) as [t' [e|a]]; reflexivity.
Qed.

Lemma bind_ret_run {A B} (m : M A) (k : A -> M B) env t t' a :
  m env t = (t', inr a) -> bind m k env t = k a env t'.
Proof. unfold bind. now intros ->. Qed.

Lemma bind_throw_run {A B} (m : M A) (k : A -> M B) env t t' e :
  m env t = (t', inl e) -> bind m k env t = (t', inl e).
Proof. unfold bind. now intros ->. Qed.

Example filter_conditions_kishida :
  filterConditions Scenario.kishida =
  ([js "((e.speaker ILIKE $1))"; js "(e.date >= $2 AND e.date <= $3)"],
   [js "%岸田%"; js "2024-01-01"; js "2024-12-31"]).
Proof. vm_compute. reflexivity. Qed.

(** How [applyStructuredFilter] runs against an initialised store. *)
Lemma applyStructuredFilter_run env pool ents t :
  dbPool env = Some pool ->
  applyStructuredFilter ents env t =
  match fst (filterConditions ents) with
  | [] => (t, inr [])
  | _ :: _ =>
    let query := FilterSql (join (js " AND ") (fst (filterConditions ents)))
                           (snd (filterConditions ents)) in
    (t ++ [CQuery query],
     match pool t query with
     | inr rows => inr (map DatabaseRow.speech_id rows)
     | inl _ => inr []
     end)
  end.
Proof.
  intros Hpool. unfold applyStructuredFilter, bind, ask. rewrite Hpool.
  destruct (filterConditions ents) as [conditions params]. simpl.
  destruct conditions as [|c cs]; simpl; [reflexivity|].
  unfold try_catch, bind, call, ret.
  destruct (pool t _); reflexivity.
Qed.

(** C8. Against an initialised store the filter does not raise, and when
    the store fails on the filter's statement the filter returns the empty
    sequence; a plan with [structured] enabled then searches without an id
    restriction, at ceiling 0.6. *)
Theorem structured_filter_fails_soft
    (env : Env) (pool : Trace -> Sql -> Exn + list DatabaseRow.t)
    (ents : KokkaiEntities) (t : Trace) (e : Exn) :
  dbPool env = Some pool ->
  pool t (FilterSql (join (js " AND ") (fst (filterConditions ents)))
                    (snd (filterConditions ents))) = inl e ->
  snd (applyStructuredFilter ents env t) = inr []
  /\ forall plan topK queryEmbedding,
       entities plan = ents ->
       includes (enabledStrategies plan) (js "structured") = true ->
       snd (searchQuery plan topK queryEmbedding env t)
       = inr (SearchSql queryEmbedding None (num (6 # 10)) topK).
Proof.
  intros Hpool Hfail.
  assert (Hrun : exists t', applyStructuredFilter ents env t = (t', inr [])).
  { rewrite (@applyStructuredFilter_run env pool ents t Hpool).
    destruct (fst (filterConditions ents)); [eauto|].
    cbv zeta. rewrite Hfail. eauto. }
  destruct Hrun as [t' Hrun]. split.
  - now rewrite Hrun.
  - intros plan topK v <- Hs. unfold searchQuery. rewrite Hs.
    erewrite bind_ret_run by exact Hrun. reflexivity.
Qed.

Lemma structured_filter_fails_soft_witness :
  snd (applyStructuredFilter Scenario.kishida
         (Scenario.world Scenario.no_parse None (Some Scenario.store_filter_down)) [])
  = inr [].
Proof.
  apply (@structured_filter_fails_soft
           (Scenario.world Scenario.no_parse None (Some Scenario.store_filter_down))
           Scenario.store_filter_down Scenario.kishida [] Scenario.timeout).
  - reflexivity.
  - reflexivity.
Defined.

(** The filter never raises against an initialised store. *)
Lemma applyStructuredFilter_total env pool ents t :
  dbPool env = Some pool ->
  exists t' ids, applyStructuredFilter ents env t = (t', inr ids).
Proof.
  intros Hpool. rewrite (@applyStructuredFilter_run env pool ents t Hpool).
  destruct (fst (filterConditions ents)); [eauto|].
  cbv zeta. destruct (pool t _); eauto.
Qed.

(** C1. The statement of a sub-query is fixed by [enabledStrategies] and
    the candidate ids: with [structured] enabled and candidates found, the
    search is restricted to them at ceiling 0.8; with [structured] enabled
    and no candidate, it is unrestricted at ceiling 0.6; without
    [structured], it is unrestricted at ceiling 0.7 and the filter is not
    consulted. *)
Theorem search_statement_selection
    (env : Env) (plan : QueryPlan) (topK : Z) (queryEmbedding : Vec) (t : Trace) :
  (forall t' candidateIds,
      includes (enabledStrategies plan) (js "structured") = true ->
      applyStructuredFilter (entities plan) env t = (t', inr candidateIds) ->
      candidateIds <> [] ->
      searchQuery plan topK queryEmbedding env t
      = (t', inr (SearchSql queryEmbedding (Some candidateIds) (num (8 # 10)) topK)))
  /\ (forall t',
      includes (enabledStrategies plan) (js "structured") = true ->
      applyStructuredFilter (entities plan) env t = (t', inr []) ->
      searchQuery plan topK queryEmbedding env t
      = (t', inr (SearchSql queryEmbedding None (num (6 # 10)) topK)))
  /\ (includes (enabledStrategies plan) (js "structured") = false ->
      searchQuery plan topK queryEmbedding env t
      = (t, inr (SearchSql queryEmbedding None (num (7 # 10)) topK))).
Proof.
  repeat split.
  - intros t' ids Hs Hrun H. unfold searchQuery. rewrite Hs.
    erewrite bind_ret_run by exact Hrun.
    destruct ids; [congruence | reflexivity].
  - intros t' Hs Hrun. unfold searchQuery. rewrite Hs.
    erewrite bind_ret_run by exact Hrun. reflexivity.
  - intros Hs. unfold searchQuery. rewrite Hs. reflexivity.
Qed.

Lemma search_statement_selection_witness :
  searchQuery Scenario.structured_plan 5 [num 1]
    (Scenario.world Scenario.no_parse None (Some Scenario.store_ok)) []
  = ([CQuery (FilterSql (js "((e.speaker ILIKE $1)) AND (e.date >= $2 AND e.date <= $3)")
                        [js "%岸田%"; js "2024-01-01"; js "2024-12-31"])],
     inr (SearchSql [num 1] (Some [js "S1"; js "S2"]) (num (8 # 10)) 5))
  /\ searchQuery Scenario.structured_plan 5 [num 1]
       (Scenario.world Scenario.no_parse None (Some Scenario.store_no_candidates)) []
     = ([CQuery (FilterSql (js "((e.speaker ILIKE $1)) AND (e.date >= $2 AND e.date <= $3)")
                           [js "%岸田%"; js "2024-01-01"; js "2024-12-31"])],
        inr (SearchSql [num 1] None (num (6 # 10)) 5))
  /\ searchQuery Scenario.vector_plan 5 [num 1]
       (Scenario.world Scenario.no_parse None (Some Scenario.store_ok)) []
     = ([], inr (SearchSql [num 1] None (num (7 # 10)) 5)).
Proof.
  split; [|split].
  - apply (proj1 (@search_statement_selection
             (Scenario.world Scenario.no_parse None (Some Scenario.store_ok))
             Scenario.structured_plan 5 [num 1] [])).
    + reflexivity.
    + vm_compute. reflexivity.
    + discriminate.
  - apply (proj1 (proj2 (@search_statement_selection
             (Scenario.world Scenario.no_parse None (Some Scenario.store_no_candidates))
             Scenario.structured_plan 5 [num 1] []))).
    + reflexivity.
    + vm_compute. reflexivity.
  - apply (proj2 (proj2 (@search_statement_selection
             (Scenario.world Scenario.no_parse None (Some Scenario.store_ok))
             Scenario.vector_plan 5 [num 1] []))).
    reflexivity.
Defined.

(* ===================================================================== *)
(** * One sub-query, and the loop over the sub-queries *)
(* ===================================================================== *)

(** The three calls of one sub-query: the embedding of the expanded text,
    the filter when [structured] is enabled, the search statement chosen by
    [searchQuery]. *)
Lemma searchSubquery_run env embed pool plan topK subquery t :
  embedModel env = Some embed -> dbPool env = Some pool ->
  searchSubquery plan topK subquery env t =
  let text := expandedQuery plan subquery in
  match embed t text with
  | inl e => (t ++ [CEmbed text], inl e)
  | inr v =>
    match searchQuery plan topK v env (t ++ [CEmbed text]) with
    | (t2, inl e) => (t2, inl e)
    | (t2, inr sql) =>
      (t2 ++ [CQuery sql],
       match pool t2 sql with
       | inl e => inl e
       | inr rows => inr (map (toSpeechResult env) rows)
       end)
    end
  end.
Proof.
  intros He Hp. unfold searchSubquery, bind, ask, call, ret.
  rewrite He, Hp. cbv zeta.
  destruct (embed t _) as [e|v]; [reflexivity|].
  destruct (searchQuery plan topK v env _) as [t2 [e|sql]]; [reflexivity|].
  destruct (pool t2 sql); reflexivity.
Qed.

Lemma searchAll_app plan topK pre post acc env t :
  searchAll plan topK (pre ++ post) acc env t =
  match searchAll plan topK pre acc env t with
  | (t', inr acc') => searchAll plan topK post acc' env t'
  | (t', inl e) => (t', inl e)
  end.
Proof.
  revert acc t. induction pre as [|sq pre IH]; intros acc t; simpl.
  - reflexivity.
  - unfold bind.
    destruct (searchSubquery plan topK sq env t) as [t1 [e|rs]]; [reflexivity|].
    apply IH.
Qed.

(** C5, as the code has it.  A store failure on the search statement of
    any sub-query aborts the whole search: [searchWithPlan] re-throws the
    error, the trace ends with the failing statement, so the remaining
    sub-queries are not executed, and the results of the earlier sub-queries
    are not returned. *)
Theorem search_failure_aborts
    (env : Env) (embed : Trace -> jsstring -> Exn + Vec)
    (pool : Trace -> Sql -> Exn + list DatabaseRow.t)
    (plan : QueryPlan) (topK : Z)
    (earlier later : list jsstring) (subquery : jsstring)
    (t t1 t2 : Trace) (found : list SpeechResult)
    (v : Vec) (sql : Sql) (e : Exn) :
  embedModel env = Some embed -> dbPool env = Some pool ->
  subqueries plan = earlier ++ subquery :: later ->
  searchAll plan topK earlier [] env t = (t1, inr found) ->
  embed t1 (expandedQuery plan subquery) = inr v ->
  searchQuery plan topK v env (t1 ++ [CEmbed (expandedQuery plan subquery)])
    = (t2, inr sql) ->
  pool t2 sql = inl e ->
  searchWithPlan plan topK env t = (t2 ++ [CQuery sql], inl e).
Proof.
  intros He Hp Hsubs Hearlier Hv Hsql Hfail.
  unfold searchWithPlan, bind at 1, ask. rewrite He, Hp.
  rewrite try_catch_rethrow.
  apply bind_throw_run.
  rewrite Hsubs, searchAll_app, Hearlier. simpl.
  apply bind_throw_run.
  rewrite (@searchSubquery_run env embed pool plan topK subquery t1 He Hp).
  cbv zeta. rewrite Hv, Hsql, Hfail. reflexivity.
Qed.

Example second_store_call_times_out :
  searchWithPlan Scenario.vector_plan 5
    (Scenario.world Scenario.no_parse None (Some Scenario.store_second_down)) []
  = ([CEmbed (js "abc");
      CQuery (SearchSql [num 3] None (num (7 # 10)) 5);
      CEmbed (js "abcd");
      CQuery (SearchSql [num 4] None (num (7 # 10)) 5)],
     inl Scenario.timeout).
Proof. vm_compute. reflexivity. Qed.

Lemma search_failure_aborts_witness :
  searchWithPlan Scenario.vector_plan 5
    (Scenario.world Scenario.no_parse None (Some Scenario.store_second_down)) []
  = ([CEmbed (js "abc");
      CQuery (SearchSql [num 3] None (num (7 # 10)) 5);
      CEmbed (js "abcd")] ++ [CQuery (SearchSql [num 4] None (num (7 # 10)) 5)],
     inl Scenario.timeout).
Proof.
  apply (@search_failure_aborts
           (Scenario.world Scenario.no_parse None (Some Scenario.store_second_down))
           (fun _ text => inr [num (inject_Z (Z.of_nat (length text)))])
           Scenario.store_second_down
           Scenario.vector_plan 5 [js "abc"] [js "abcde"] (js "abcd")
           [] [CEmbed (js "abc"); CQuery (SearchSql [num 3] None (num (7 # 10)) 5)]
           [CEmbed (js "abc"); CQuery (SearchSql [num 3] None (num (7 # 10)) 5);
            CEmbed (js "abcd")]
           [toSpeechResult
              (Scenario.world Scenario.no_parse None (Some Scenario.store_second_down))
              (Scenario.row "S1" "0.9")]
           [num 4] (SearchSql [num 4] None (num (7 # 10)) 5) Scenario.timeout).
  - reflexivity.
  - reflexivity.
  - reflexivity.
  - vm_compute. reflexivity.
  - vm_compute. reflexivity.
  - vm_compute. reflexivity.
  - reflexivity.
Defined.

(** C5, as stated, fails.  The plan has three sub-queries; the store
    answers the first search with a hit and times out on the second.  The
    search ends with the time-out: the third sub-query is never embedded or
    searched, and the hit of the first is not returned. *)
Lemma failed_subquery_aborts_siblings :
  fst (searchWithPlan Scenario.vector_plan 5
         (Scenario.world Scenario.no_parse None (Some Scenario.store_second_down)) [])
  = [CEmbed (js "abc");
     CQuery (SearchSql [num 3] None (num (7 # 10)) 5);
     CEmbed (js "abcd");
     CQuery (SearchSql [num 4] None (num (7 # 10)) 5)]
  /\ snd (searchWithPlan Scenario.vector_plan 5
            (Scenario.world Scenario.no_parse None (Some Scenario.store_second_down)) [])
     = inl Scenario.timeout
  /\ ~ (exists merged,
          snd (searchWithPlan Scenario.vector_plan 5
                 (Scenario.world Scenario.no_parse None
                    (Some Scenario.store_second_down)) [])
          = inr merged).
Proof.
  rewrite second_store_call_times_out. simpl.
  repeat split. intros [merged H]. discriminate.
Qed.

(* ===================================================================== *)
(** * What the entities influence *)
(* ===================================================================== *)

Lemma filterConditions_frame (e1 e2 : KokkaiEntities) :
  speakers e1 = speakers e2 -> parties e1 = parties e2 ->
  dateRange e1 = dateRange e2 ->
  filterConditions e1 = filterConditions e2.
Proof. unfold filterConditions. now intros -> -> ->. Qed.

Lemma applyStructuredFilter_frame (e1 e2 : KokkaiEntities) env t :
  speakers e1 = speakers e2 -> parties e1 = parties e2 ->
  dateRange e1 = dateRange e2 ->
  applyStructuredFilter e1 env t = applyStructuredFilter e2 env t.
Proof.
  intros Hs Hp Hd. unfold applyStructuredFilter.
  now rewrite (filterConditions_frame _ _ Hs Hp Hd).
Qed.

(** C10. Two plans with the same strategies whose entities agree on
    [speakers], [parties] and [dateRange] get the same candidate ids from
    the filter and the same search statement, whatever their [meetings],
    [positions] and [topics]; if they also agree on [topics], the whole
    sub-query runs the same.  The topics enter through the embedded text
    alone: joined by spaces and appended to the sub-query. *)
Theorem entities_frame
    (p1 p2 : QueryPlan) (topK : Z) (subquery : jsstring) (env : Env) (t : Trace) :
  enabledStrategies p1 = enabledStrategies p2 ->
  speakers (entities p1) = speakers (entities p2) ->
  parties (entities p1) = parties (entities p2) ->
  dateRange (entities p1) = dateRange (entities p2) ->
  applyStructuredFilter (entities p1) env t = applyStructuredFilter (entities p2) env t
  /\ (forall v, searchQuery p1 topK v env t = searchQuery p2 topK v env t)
  /\ (topics (entities p1) = topics (entities p2) ->
      searchSubquery p1 topK subquery env t = searchSubquery p2 topK subquery env t)
  /\ expandedQuery p1 subquery
     = match topics (entities p1) with
       | None | Some [] => subquery
       | Some ts => subquery ++ js " " ++ join (js " ") ts
       end.
Proof.
  intros Hst Hs Hp Hd.
  assert (Hq : forall v t', searchQuery p1 topK v env t' = searchQuery p2 topK v env t').
  { intros v t'. unfold searchQuery. rewrite Hst.
    destruct (includes (enabledStrategies p2) (js "structured")); [|reflexivity].
    unfold bind.
    now rewrite (applyStructuredFilter_frame _ _ env t' Hs Hp Hd). }
  repeat split.
  - now apply applyStructuredFilter_frame.
  - intros v. apply Hq.
  - intros Ht. unfold searchSubquery, bind, ask, expandedQuery. rewrite Ht.
    destruct (embedModel env) as [embed|]; [|reflexivity].
    destruct (dbPool env) as [pool|]; [|reflexivity].
    unfold call at 1 3.
    destruct (embed t _) as [e|v]; [reflexivity|].
    now rewrite Hq.
Qed.

Lemma entities_frame_witness :
  applyStructuredFilter Scenario.kishida
    (Scenario.world Scenario.no_parse None (Some Scenario.store_ok)) []
  = applyStructuredFilter Scenario.kishida_elsewhere
      (Scenario.world Scenario.no_parse None (Some Scenario.store_ok)) []
  /\ searchSubquery Scenario.structured_plan 5 (js "岸田総理 防衛費")
       (Scenario.world Scenario.no_parse None (Some Scenario.store_ok)) []
     = searchSubquery
         (Scenario.plan_of [] Scenario.kishida_elsewhere [js "vector"; js "structured"])
         5 (js "岸田総理 防衛費")
         (Scenario.world Scenario.no_parse None (Some Scenario.store_ok)) [].
Proof.
  destruct (@entities_frame Scenario.structured_plan
              (Scenario.plan_of [] Scenario.kishida_elsewhere
                 [js "vector"; js "structured"])
              5 (js "岸田総理 防衛費")
              (Scenario.world Scenario.no_parse None (Some Scenario.store_ok)) [])
    as (Hf & _ & Hsub & _); try reflexivity.
  split; [exact Hf | apply Hsub; reflexivity].
Defined.

Example expanded_query_kishida :
  expandedQuery Scenario.structured_plan (js "岸田総理 防衛費")
  = js "岸田総理 防衛費 防衛費 防衛予算".
Proof. vm_compute. reflexivity. Qed.

(* ===================================================================== *)
(** * The answer *)
(* ===================================================================== *)

Lemma contains_refl s : contains s s.
Proof. exists [], []. now rewrite app_nil_r. Qed.

Lemma contains_here needle post : contains (needle ++ post) needle.
Proof. now exists [], post. Qed.

Lemma contains_skip pre hay needle :
  contains hay needle -> contains (pre ++ hay) needle.
Proof.
  intros (a & b & ->). exists (pre ++ a), b. now rewrite <- app_assoc.
Qed.

Lemma contains_before hay post needle :
  contains hay needle -> contains (hay ++ post) needle.
Proof.
  intros (a & b & ->). exists a, (b ++ post). now rewrite <- !app_assoc.
Qed.

Lemma contains_trans a b c : contains a b -> contains b c -> contains a c.
Proof.
  intros (p & q & ->) Hc. now apply contains_skip, contains_before.
Qed.

Lemma contains_join sep parts x : In x parts -> contains (join sep parts) x.
Proof.
  induction parts as [|y parts IH]; simpl; [tauto|].
  intros [->|Hin].
  - destruct parts; [apply contains_refl | apply contains_here].
  - destruct parts as [|z parts]; [destruct Hin|].
    now apply contains_skip, contains_skip, IH.
Qed.

Lemma mapi_from_In {A B} (f : A -> nat -> B) l i x :
  In x l -> exists j, In (f x j) (mapi_from i f l).
Proof.
  revert i. induction l as [|y l IH]; simpl; intros i; [tauto|].
  intros [->|Hin].
  - exists i. now left.
  - destruct (IH (S i) Hin) as [j Hj]. exists j. now right.
Qed.

Ltac find_part :=
  repeat first [ apply contains_refl | apply contains_here | apply contains_skip ].

(** Every field of a result is printed in its item of the fallback. *)
Lemma fallbackItem_fields r i :
  contains (fallbackItem r i) (speaker r)
  /\ contains (fallbackItem r i) (party r)
  /\ contains (fallbackItem r i) (date r)
  /\ contains (fallbackItem r i) (meeting r)
  /\ contains (fallbackItem r i) (substring0 (content r) 300)
  /\ contains (fallbackItem r i) (url r)
  /\ contains (fallbackItem r i) (toFixed (score r) 3).
Proof. unfold fallbackItem. repeat split; find_part. Qed.

Lemma fallbackAnswer_item results r :
  In r results -> exists i, contains (fallbackAnswer results) (fallbackItem r i).
Proof.
  intros Hin. destruct (mapi_from_In fallbackItem results 0 r Hin) as [i Hi].
  exists i. unfold fallbackAnswer. do 3 apply contains_skip.
  now apply contains_join.
Qed.

(** C7. With results at hand, a failure of the completion service does
    not reach the caller: [generateAnswer] returns the answer assembled from
    the result list alone.  That answer is not empty and prints, for each
    result, its speaker, party, date, meeting, the first 300 code units of
    its content, its url and its score to three decimals; so it contains
    the url of a result. *)
Theorem answer_fails_soft
    (env : Env) (complete : Trace -> jsstring -> Exn + jsstring)
    (query : jsstring) (results : list SpeechResult) (t : Trace) (e : Exn) :
  llm env = Some complete ->
  results <> [] ->
  complete t (answerPrompt query results) = inl e ->
  generateAnswer query results env t
    = (t ++ [CComplete (answerPrompt query results)], inr (fallbackAnswer results))
  /\ fallbackAnswer results <> []
  /\ (forall r, In r results ->
        contains (fallbackAnswer results) (speaker r)
        /\ contains (fallbackAnswer results) (party r)
        /\ contains (fallbackAnswer results) (date r)
        /\ contains (fallbackAnswer results) (meeting r)
        /\ contains (fallbackAnswer results) (substring0 (content r) 300)
        /\ contains (fallbackAnswer results) (url r)
        /\ contains (fallbackAnswer results) (toFixed (score r) 3))
  /\ (exists r, In r results /\ contains (fallbackAnswer results) (url r)).
Proof.
  intros Hllm Hne Hfail.
  assert (Hfields : forall r, In r results ->
        contains (fallbackAnswer results) (speaker r)
        /\ contains (fallbackAnswer results) (party r)
        /\ contains (fallbackAnswer results) (date r)
        /\ contains (fallbackAnswer results) (meeting r)
        /\ contains (fallbackAnswer results) (substring0 (content r) 300)
        /\ contains (fallbackAnswer results) (url r)
        /\ contains (fallbackAnswer results) (toFixed (score r) 3)).
  { intros r Hin. destruct (fallbackAnswer_item results r Hin) as [i Hi].
    destruct (fallbackItem_fields r i) as (H1 & H2 & H3 & H4 & H5 & H6 & H7).
    repeat split; eapply contains_trans; eauto. }
  split; [|split; [|split]].
  - unfold generateAnswer, bind, ask. rewrite Hllm.
    unfold try_catch, call, ret. now rewrite Hfail.
  - unfold fallbackAnswer. intros H. apply app_eq_nil in H.
    destruct H as [H _]. vm_compute in H. discriminate.
  - exact Hfields.
  - destruct results as [|r rest]; [congruence|].
    exists r. split; [now left|]. apply Hfields. now left.
Qed.

Lemma answer_fails_soft_witness :
  generateAnswer (js "防衛費") Scenario.three_hits
    (Scenario.world Scenario.no_parse (Some Scenario.llm_down) None) []
  = ([CComplete (answerPrompt (js "防衛費") Scenario.three_hits)],
     inr (fallbackAnswer Scenario.three_hits))
  /\ exists r, In r Scenario.three_hits
               /\ contains (fallbackAnswer Scenario.three_hits) (url r).
Proof.
  destruct (@answer_fails_soft
              (Scenario.world Scenario.no_parse (Some Scenario.llm_down) None)
              Scenario.llm_down (js "防衛費") Scenario.three_hits []
              (Error (js "connect ECONNREFUSED 127.0.0.1:11434")))
    as (Hrun & _ & _ & Hurl).
  - reflexivity.
  - discriminate.
  - reflexivity.
  - split; [exact Hrun | exact Hurl].
Defined.

Example fallback_of_one_hit :
  fallbackAnswer [Scenario.hit "S1" (9 # 10)]
  = js "検索結果に基づく情報:" ++ nl ++ nl
    ++ js "1. 岸田文雄 (自由民主党)" ++ nl
    ++ js "   日付: 2024-03-05" ++ nl
    ++ js "   会議: 予算委員会" ++ nl
    ++ js "   内容: 防衛費について..." ++ nl
    ++ js "   出典: https://kokkai.ndl.go.jp/txt/S1" ++ nl
    ++ js "   関連度: 0.900".
Proof. vm_compute. reflexivity. Qed.

(* ===================================================================== *)
(** * The planner *)
(* ===================================================================== *)

Lemma parsePlan_run question planText env t :
  parsePlan question planText env t =
  (t, match JSON_parse env planText with
      | inl message =>
        inl (Error (js "Failed to parse LLM response as JSON: " ++ message
                    ++ nl ++ js "Response: " ++ planText))
      | inr planData =>
        match toQueryPlan question planData with
        | inl e => inl e
        | inr plan =>
          match logPlan plan with
          | inl e => inl e
          | inr _ => inr plan
          end
        end
      end).
Proof.
  unfold parsePlan, bind, ask, lift, ret, throw.
  destruct (JSON_parse env planText) as [m|planData]; [reflexivity|].
  destruct (toQueryPlan question planData) as [e|plan]; [reflexivity|].
  destruct (logPlan plan); reflexivity.
Qed.




Lemma or_else_absent v d : absent v -> or_else v d = d.
Proof. now intros [->| ->]. Qed.






Example plan_of_response_empty :
  planKokkaiQuery Scenario.question
    (Scenario.planner_world Scenario.response_empty) []
  = ([CComplete (plannerPrompt Scenario.question)], inr Scenario.plan_empty).
Proof. vm_compute. reflexivity. Qed.

Example plan_of_empty_object :
  snd (planKokkaiQuery Scenario.question (Scenario.planner_world (js "{}")) [])
  = inr {|
      Dyn.originalQuestion := Scenario.question;
      Dyn.subqueries := JArr [JStr Scenario.question];
      Dyn.entities := Dyn.entities Scenario.plan_empty;
      Dyn.enabledStrategies := JArr [JStr (js "vector")];
      Dyn.confidence := JNum (num (1 # 2));
      Dyn.estimatedComplexity := JNum (num 2)
    |}.
Proof. vm_compute. reflexivity. Qed.

Example plan_of_null :
  snd (planKokkaiQuery Scenario.question (Scenario.planner_world (js "null")) [])
  = inl (TypeError (js "Cannot read properties of null (reading 'subqueries')")).
Proof. vm_compute. reflexivity. Qed.

Example plan_of_strategy_string :
  snd (planKokkaiQuery Scenario.question
         (Scenario.planner_world Scenario.response_strategy_string) [])
  = inl (TypeError (js "plan.enabledStrategies.join is not a function")).
Proof. vm_compute. reflexivity. Qed.

Example plan_of_garbage :
  snd (planKokkaiQuery Scenario.question (Scenario.planner_world (js "はい")) [])
  = inl (Error (js "Failed to parse LLM response as JSON: Unexpected token"
                ++ nl ++ js "Response: はい")).
Proof. vm_compute. reflexivity. Qed.






(* ===================================================================== *)
(** * More on the aggregation *)
(* ===================================================================== *)

Lemma StronglySorted_app_order {A} (R : A -> A -> Prop) l1 l2 :
  StronglySorted R (l1 ++ l2) ->
  forall a b, In a l1 -> In b l2 -> R a b.
Proof.
  induction l1 as [|x l1 IH]; simpl; intros H a b Ha Hb; [tauto|].
  inversion H as [|? ? Hs Hall]; subst.
  destruct Ha as [->|Ha]; [|eauto].
  rewrite Forall_forall in Hall. apply Hall, in_or_app. now right.
Qed.

Lemma set_fresh {V} (m : @Map V) k v :
  ~ In k (map fst m) -> set m k v = m ++ [(k, v)].
Proof.
  induction m as [|[k0 v0] m IH]; simpl; intros H; [reflexivity|].
  str_cases k0 k; [tauto|]. rewrite IH by tauto. reflexivity.
Qed.

Lemma dedupe_snoc_fresh hits r :
  ~ In (speechId r) (map speechId hits) -> dedupe (hits ++ [r]) = dedupe hits ++ [r].
Proof.
  intros H. unfold dedupe, values. rewrite map_app. simpl.
  rewrite newMap_snoc. simpl. rewrite set_fresh.
  - now rewrite map_app.
  - rewrite In_keys_newMap, map_map. exact H.
Qed.

(** A list without a repeated id is left as it is. *)
Lemma dedupe_fixed hits : NoDup (map speechId hits) -> dedupe hits = hits.
Proof.
  induction hits as [|r hits IH] using rev_ind; intros H; [reflexivity|].
  rewrite map_app in H. simpl in H.
  apply NoDup_remove in H. rewrite app_nil_r in H. destruct H as [Hnd Hnot].
  rewrite dedupe_snoc_fresh by assumption. now rewrite IH.
Qed.

Lemma insert_head x l :
  Forall (desc x) l -> insert byScore x l = x :: l.
Proof.
  destruct l as [|y l]; [reflexivity|]. intros H. simpl.
  destruct (Qclt_le_dec 0 (byScore x y)) as [Hlt|]; [|reflexivity].
  apply byScore_pos in Hlt. inversion H as [|? ? Hxy _]; subst.
  exfalso. unfold desc in Hxy. now apply Qcle_not_lt in Hxy.
Qed.

(** A list already sorted by score is left as it is. *)
Lemma sort_fixed l : StronglySorted desc l -> sort byScore l = l.
Proof.
  induction 1 as [|x l Hs IH Hall]; [reflexivity|].
  cbn [sort fold_right]. fold (sort byScore l). rewrite IH.
  now apply insert_head.
Qed.

Lemma dedupe_ids_firstSeen hits :
  map speechId (dedupe hits) = firstSeen (map speechId hits).
Proof.
  unfold firstSeen.
  induction hits as [|r hits IH] using rev_ind; [reflexivity|].
  rewrite map_app, rev_app_distr. cbn [map rev app nodup].
  destruct (in_dec (list_eq_dec N.eq_dec) (speechId r) (rev (map speechId hits)))
    as [Hin|Hnot].
  - rewrite <- IH. rewrite dedupe_ids, map_app. cbn [map].
    rewrite newMap_snoc, keys_set. cbn [fst snd].
    rewrite (proj2 (existsb_str_eqb (speechId r) _)).
    + now rewrite <- dedupe_ids.
    + rewrite In_keys_newMap, map_map. simpl. now apply in_rev.
  - cbn [rev]. rewrite <- IH. rewrite dedupe_snoc_fresh; [now rewrite map_app|].
    intros H. apply Hnot. now apply -> in_rev.
Qed.

Lemma sorted_dedupe_length hits :
  length (sort byScore (dedupe hits))
  = length (nodup (list_eq_dec N.eq_dec) (map speechId hits)).
Proof.
  rewrite <- (Permutation_length (sort_perm byScore _)). apply dedupe_length.
Qed.

(** X1. Truncation keeps the best: every hit of the output scores at least
    as high as every deduplicated hit that was cut off. *)
Theorem truncation_keeps_best
    (hits : list SpeechResult) (topK : Z) (kept dropped : SpeechResult) :
  In kept (uniqueResults hits topK) ->
  In dropped (dedupe hits) ->
  ~ In dropped (uniqueResults hits topK) ->
  (score dropped <= score kept)%Qc.
Proof.
  destruct (uniqueResults_prefix hits topK) as [n ->].
  intros Hk Hd Hnot.
  assert (Hs : In dropped (sort byScore (dedupe hits)))
    by (eapply Permutation_in; [apply sort_perm | exact Hd]).
  rewrite <- (firstn_skipn n (sort byScore (dedupe hits))) in Hs.
  apply in_app_or in Hs. destruct Hs as [Hs|Hs]; [contradiction|].
  apply (@StronglySorted_app_order _ desc (firstn n (sort byScore (dedupe hits)))
           (skipn n (sort byScore (dedupe hits)))); auto.
  rewrite firstn_skipn. apply sort_desc.
Qed.

Lemma truncation_keeps_best_witness :
  (score (Scenario.hit "S1" (5 # 10)) <= score (Scenario.hit "S3" (7 # 10)))%Qc.
Proof.
  apply (@truncation_keeps_best Scenario.three_hits 2).
  - vm_compute. right. left. reflexivity.
  - vm_compute. left. reflexivity.
  - vm_compute. intros [H|[H|[]]]; discriminate.
Defined.

(** X2. For a result count [topK] the output has exactly as many entries
    as there are distinct ids among the hits, capped at [topK]. *)
Theorem uniqueResults_length (hits : list SpeechResult) (topK : Z) :
  (0 <= topK)%Z ->
  length (uniqueResults hits topK)
  = Nat.min (Z.to_nat topK)
            (length (nodup (list_eq_dec N.eq_dec) (map speechId hits))).
Proof.
  intros Hk. unfold uniqueResults, slice0.
  destruct (Z.ltb_spec topK 0); [lia|].
  now rewrite length_firstn, sorted_dedupe_length.
Qed.

Lemma uniqueResults_length_witness :
  length (uniqueResults (Scenario.three_hits ++ Scenario.first_sub) 2)
  = Nat.min (Z.to_nat 2)
      (length (nodup (list_eq_dec N.eq_dec)
                 (map speechId (Scenario.three_hits ++ Scenario.first_sub)))).
Proof. apply uniqueResults_length. lia. Defined.

(** X3. Aggregating the output again, with a [topK] that does not cut it,
    changes nothing. *)
Theorem uniqueResults_idempotent (hits : list SpeechResult) (topK again : Z) :
  (Z.of_nat (length (uniqueResults hits topK)) <= again)%Z ->
  uniqueResults (uniqueResults hits topK) again = uniqueResults hits topK.
Proof.
  intros Hk. unfold uniqueResults at 1.
  rewrite dedupe_fixed by apply uniqueResults_NoDup_ids.
  rewrite sort_fixed by apply uniqueResults_sorted.
  now apply slice0_all.
Qed.

Lemma uniqueResults_idempotent_witness :
  uniqueResults (uniqueResults (Scenario.three_hits ++ Scenario.first_sub) 2) 5
  = uniqueResults (Scenario.three_hits ++ Scenario.first_sub) 2.
Proof. apply uniqueResults_idempotent. vm_compute. discriminate. Defined.

(** X4. The output is a prefix of the one arrangement of the deduplicated
    hits that is sorted by score, descending, with hits of equal score in
    the order in which their ids were first seen; a repeated id keeps the
    place of its first hit. *)
Theorem equal_scores_keep_first_seen_order (hits : list SpeechResult) :
  (forall topK, exists n,
      uniqueResults hits topK = firstn n (sort byScore (dedupe hits)))
  /\ StronglySorted desc (sort byScore (dedupe hits))
  /\ (forall s, withScore s (sort byScore (dedupe hits)) = withScore s (dedupe hits))
  /\ map speechId (dedupe hits) = firstSeen (map speechId hits).
Proof.
  repeat split.
  - intros topK. apply uniqueResults_prefix.
  - apply sort_desc.
  - intros s. apply sort_stable.
  - apply dedupe_ids_firstSeen.
Qed.

(** X5. The aggregation invents no hit, and with [topK] at least the
    number of distinct ids it loses no id. *)
Theorem aggregation_sound_and_complete (hits : list SpeechResult) (topK : Z) :
  (forall r, In r (uniqueResults hits topK) -> In r hits)
  /\ ((Z.of_nat (length (nodup (list_eq_dec N.eq_dec) (map speechId hits)))
       <= topK)%Z ->
      forall id, In id (map speechId hits)
                 <-> In id (map speechId (uniqueResults hits topK))).
Proof.
  split.
  - intros r Hr. now apply dedupe_incl, uniqueResults_In with topK.
  - intros Hk id. unfold uniqueResults.
    rewrite slice0_all by (now rewrite sorted_dedupe_length).
    rewrite <- dedupe_has_id. split; apply Permutation_in;
      [|apply Permutation_sym]; apply Permutation_map, sort_perm.
Qed.

Lemma aggregation_sound_and_complete_witness :
  In (js "S3") (map speechId
                  (uniqueResults (Scenario.three_hits ++ Scenario.first_sub) 3)).
Proof.
  apply (proj2 (@aggregation_sound_and_complete
                  (Scenario.three_hits ++ Scenario.first_sub) 3)).
  - vm_compute. discriminate.
  - simpl. right. right. left. reflexivity.
Defined.

(* ===================================================================== *)
(** * More on the structured filter *)
(* ===================================================================== *)

(** The callback numbers its parameters consecutively after the ones
    pushed before, and pushes one pattern per name. *)
Lemma ilikeConditions_closed column names params :
  ilikeConditions column names params =
  (map (fun i => js "(" ++ column ++ js " ILIKE $"
                 ++ digits (N.of_nat (length params + 1 + i)) ++ js ")")
       (seq 0 (length names)),
   params ++ map pattern names).
Proof.
  revert params. induction names as [|name rest IH]; intros params.
  - simpl. now rewrite app_nil_r.
  - cbn [ilikeConditions]. rewrite IH. cbn [length seq map].
    rewrite <- seq_shift, map_map, <- app_assoc. cbn [app].
    f_equal. f_equal; [now rewrite Nat.add_0_r|].
    apply map_ext. intros i. rewrite length_app. cbn [length].
    replace (length params + 1 + 1 + i) with (length params + 1 + S i) by lia.
    reflexivity.
Qed.

Lemma ilikeBlock_params column names conditions params :
  snd (ilikeBlock column names (conditions, params))
  = params ++ map pattern (listOf names).
Proof.
  unfold ilikeBlock. destruct names as [[|n ns]|]; simpl;
    try now rewrite app_nil_r.
  change (ilikeConditions column ns (params ++ [js "%" ++ n ++ js "%"]))
    with (ilikeConditions column ns (params ++ [pattern n])).
  rewrite ilikeConditions_closed. simpl. now rewrite <- app_assoc.
Qed.

Lemma ilikeBlock_text column n1 n2 conditions p1 p2 :
  length (listOf n1) = length (listOf n2) -> length p1 = length p2 ->
  fst (ilikeBlock column n1 (conditions, p1))
  = fst (ilikeBlock column n2 (conditions, p2)).
Proof.
  intros Hn Hp. unfold ilikeBlock.
  destruct n1 as [[|a1 r1]|], n2 as [[|a2 r2]|]; try discriminate; try reflexivity.
  rewrite !ilikeConditions_closed. cbn [fst]. simpl in Hn.
  injection Hn as Hn. cbn [length]. now rewrite Hn, Hp.
Qed.

Lemma dateBlock_text d1 d2 conditions p1 p2 :
  (d1 = None <-> d2 = None) -> length p1 = length p2 ->
  fst (dateBlock d1 (conditions, p1)) = fst (dateBlock d2 (conditions, p2)).
Proof.
  intros Hd Hp. unfold dateBlock.
  destruct d1 as [r1|], d2 as [r2|]; cbn [fst].
  - now rewrite Hp.
  - destruct Hd as [_ Hd]. now specialize (Hd eq_refl).
  - destruct Hd as [Hd _]. now specialize (Hd eq_refl).
  - reflexivity.
Qed.

Lemma block_pair {A B} (p : A * B) : p = (fst p, snd p).
Proof. now destruct p. Qed.

(** X6. The parameters of the filter statement are the patterns [%name%]
    of the speakers, then those of the parties, then the two dates, in that
    order; nothing else is pushed. *)
Theorem filter_parameters (ents : KokkaiEntities) :
  snd (filterConditions ents)
  = map pattern (listOf (speakers ents))
    ++ map pattern (listOf (parties ents))
    ++ match dateRange ents with
       | Some r => [start r; end_ r]
       | None => []
       end.
Proof.
  unfold filterConditions.
  rewrite (block_pair (ilikeBlock (js "e.speaker") (speakers ents) ([], []))).
  rewrite (block_pair (ilikeBlock (js "e.speaker_group") (parties ents) _)).
  rewrite !ilikeBlock_params. cbn [app].
  unfold dateBlock. destruct (dateRange ents); cbn [snd].
  - now rewrite <- app_assoc.
  - now rewrite app_nil_r.
Qed.

(** X7. The text of the WHERE clause depends on how many speakers and
    parties there are and on whether a date range is given, never on their
    content: the names and dates travel in the parameters alone. *)
Theorem where_text_ignores_values (e1 e2 : KokkaiEntities) :
  length (listOf (speakers e1)) = length (listOf (speakers e2)) ->
  length (listOf (parties e1)) = length (listOf (parties e2)) ->
  (dateRange e1 = None <-> dateRange e2 = None) ->
  fst (filterConditions e1) = fst (filterConditions e2).
Proof.
  intros Hs Hp Hd. unfold filterConditions.
  rewrite (block_pair (ilikeBlock (js "e.speaker") (speakers e1) ([], []))).
  rewrite (block_pair (ilikeBlock (js "e.speaker") (speakers e2) ([], []))).
  rewrite (ilikeBlock_text (js "e.speaker") _ _ [] [] [] Hs eq_refl).
  rewrite !ilikeBlock_params. cbn [app].
  set (c := fst (ilikeBlock (js "e.speaker") (speakers e2) ([], []))).
  assert (Hlen : length (map pattern (listOf (speakers e1)))
                 = length (map pattern (listOf (speakers e2))))
    by now rewrite !length_map.
  rewrite (block_pair (ilikeBlock (js "e.speaker_group") (parties e1) _)).
  rewrite (block_pair (ilikeBlock (js "e.speaker_group") (parties e2) _)).
  rewrite (ilikeBlock_text (js "e.speaker_group") _ _ c _ _ Hp Hlen).
  rewrite !ilikeBlock_params.
  apply dateBlock_text; [assumption|].
  now rewrite !length_app, !length_map, Hs, Hp.
Qed.

Lemma where_text_ignores_values_witness :
  fst (filterConditions Fixture.only_parties)
  = fst (filterConditions Fixture.other_parties).
Proof.
  apply where_text_ignores_values.
  - reflexivity.
  - reflexivity.
  - split; reflexivity.
Defined.

Example where_text_two_parties :
  fst (filterConditions Fixture.other_parties)
  = [js "((e.speaker_group ILIKE $1) OR (e.speaker_group ILIKE $2))"].
Proof. vm_compute. reflexivity. Qed.

Lemma ilikeBlock_conditions column names conditions params :
  fst (ilikeBlock column names (conditions, params)) = conditions
  \/ exists c, fst (ilikeBlock column names (conditions, params)) = conditions ++ [c].
Proof.
  unfold ilikeBlock. destruct names as [[|n ns]|]; auto.
  right. destruct (ilikeConditions column (n :: ns) params). simpl. eauto.
Qed.

Lemma filterConditions_empty ents :
  fst (filterConditions ents) = []
  <-> listOf (speakers ents) = [] /\ listOf (parties ents) = []
      /\ dateRange ents = None.
Proof.
  unfold filterConditions, dateBlock, ilikeBlock.
  destruct (speakers ents) as [[|s ss]|], (parties ents) as [[|p ps]|],
           (dateRange ents) as [r|];
    repeat match goal with
           | |- context [ilikeConditions ?c ?n ?p] =>
             destruct (ilikeConditions c n p)
           end;
    cbn [fst snd listOf app];
    (split; [intros H | intros (H1 & H2 & H3)]);
    try discriminate; try (repeat split; reflexivity);
    try (destruct l; discriminate);
    try (apply app_eq_nil in H; destruct H; discriminate).
Qed.

(** X8. Against an initialised store the filter queries the store exactly
    when a speaker, a party or a date range is given: with none of them it
    returns the empty sequence without any call, otherwise it sends its one
    statement. *)
Theorem filter_queries_store_iff
    (env : Env) (pool : Trace -> Sql -> Exn + list DatabaseRow.t)
    (ents : KokkaiEntities) (t : Trace) :
  dbPool env = Some pool ->
  (listOf (speakers ents) = [] /\ listOf (parties ents) = []
   /\ dateRange ents = None ->
   applyStructuredFilter ents env t = (t, inr []))
  /\ (~ (listOf (speakers ents) = [] /\ listOf (parties ents) = []
         /\ dateRange ents = None) ->
      fst (applyStructuredFilter ents env t)
      = t ++ [CQuery (FilterSql (join (js " AND ") (fst (filterConditions ents)))
                                (snd (filterConditions ents)))]).
Proof.
  intros Hpool. rewrite (@applyStructuredFilter_run env pool ents t Hpool).
  rewrite <- filterConditions_empty. split.
  - now intros ->.
  - intros H. destruct (fst (filterConditions ents)); [congruence | reflexivity].
Qed.

Lemma filter_queries_store_iff_witness :
  applyStructuredFilter Scenario.no_entities
    (Scenario.world Scenario.no_parse None (Some Scenario.store_ok)) []
  = ([], inr [])
  /\ fst (applyStructuredFilter Fixture.only_parties
            (Scenario.world Scenario.no_parse None (Some Scenario.store_ok)) [])
     = [] ++ [CQuery (FilterSql
                        (join (js " AND ") (fst (filterConditions Fixture.only_parties)))
                        (snd (filterConditions Fixture.only_parties)))].
Proof.
  split.
  - apply (proj1 (@filter_queries_store_iff
                    (Scenario.world Scenario.no_parse None (Some Scenario.store_ok))
                    Scenario.store_ok Scenario.no_entities [] eq_refl)).
    repeat split.
  - apply (proj2 (@filter_queries_store_iff
                    (Scenario.world Scenario.no_parse None (Some Scenario.store_ok))
                    Scenario.store_ok Fixture.only_parties [] eq_refl)).
    intros (_ & H & _). discriminate.
Defined.

(* ===================================================================== *)
(** * More on the loop over the sub-queries *)
(* ===================================================================== *)

Lemma count_app p a b : count p (a ++ b) = count p a + count p b.
Proof. unfold count. now rewrite filter_app, length_app. Qed.

(** The statement of a sub-query and the calls made to choose it. *)
Lemma searchQuery_calls env pool plan topK v t :
  dbPool env = Some pool ->
  exists calls ids c,
    searchQuery plan topK v env t = (t ++ calls, inr (SearchSql v ids c topK))
    /\ sentBy plan topK (CQuery (SearchSql v ids c topK))
    /\ Forall (sentBy plan topK) calls
    /\ count isEmbed calls = 0 /\ count isSearch calls = 0
    /\ count isFilter calls <= 1
    /\ (includes (enabledStrategies plan) (js "structured") = false -> calls = []).
Proof.
  intros Hpool. unfold searchQuery.
  destruct (includes (enabledStrategies plan) (js "structured")) eqn:Hs.
  - unfold bind. rewrite (@applyStructuredFilter_run env pool _ t Hpool).
    destruct (fst (filterConditions (entities plan))) as [|c0 cs] eqn:Hc.
    + exists [], None, (num (6 # 10)). rewrite app_nil_r. simpl. rewrite Hs.
      repeat split; auto; discriminate.
    + cbv zeta.
      set (q := FilterSql (join (js " AND ") (c0 :: cs))
                          (snd (filterConditions (entities plan)))).
      assert (Hq : sentBy plan topK (CQuery q)).
      { unfold q. simpl. rewrite Hs, Hc. auto. }
      destruct (pool t q) as [e|rows].
      * exists [CQuery q], None, (num (6 # 10)). simpl. rewrite Hs.
        repeat split; auto; discriminate.
      * destruct (map DatabaseRow.speech_id rows) as [|i ids] eqn:Hids.
        -- exists [CQuery q], None, (num (6 # 10)). simpl. rewrite Hs.
           repeat split; auto; discriminate.
        -- exists [CQuery q], (Some (i :: ids)), (num (8 # 10)). simpl.
           repeat split; auto; discriminate.
  - exists [], None, (num (7 # 10)). rewrite app_nil_r. simpl. rewrite Hs.
    repeat split; auto.
Qed.

(** The calls of one sub-query against initialised collaborators. *)
Lemma searchSubquery_calls env embed pool plan topK subquery t t' r :
  embedModel env = Some embed -> dbPool env = Some pool ->
  In subquery (subqueries plan) ->
  searchSubquery plan topK subquery env t = (t', r) ->
  exists calls,
    t' = t ++ calls
    /\ Forall (sentBy plan topK) calls
    /\ count isEmbed calls = 1
    /\ count isSearch calls <= 1
    /\ count isFilter calls <= 1
    /\ (includes (enabledStrategies plan) (js "structured") = false ->
        count isFilter calls = 0)
    /\ (forall rs, r = inr rs ->
          count isSearch calls = 1
          /\ exists rows, rs = map (toSpeechResult env) rows).
Proof.
  intros He Hp Hin.
  rewrite (@searchSubquery_run env embed pool plan topK subquery t He Hp).
  cbv zeta.
  assert (Hemb : sentBy plan topK (CEmbed (expandedQuery plan subquery)))
    by (simpl; eauto).
  destruct (embed t _) as [e|v].
  - intros H. inversion H; subst. exists [CEmbed (expandedQuery plan subquery)].
    repeat split; auto; try discriminate.
  - destruct (@searchQuery_calls env pool plan topK v
                (t ++ [CEmbed (expandedQuery plan subquery)]) Hp)
      as (calls & ids & c & Hq & Hsql & Hall & Hce & Hcs & Hcf & Hnone).
    rewrite Hq. intros H. inversion H; subst.
    exists ([CEmbed (expandedQuery plan subquery)] ++ calls
            ++ [CQuery (SearchSql v ids c topK)]).
    rewrite !count_app, Hce, Hcs. rewrite <- !app_assoc.
    repeat split; auto.
    + apply Forall_app. split; [auto|]. apply Forall_app. auto.
    + cbn. lia.
    + intros Hs. rewrite (Hnone Hs). reflexivity.
    + match goal with
      | E : _ = inr rs |- _ =>
        destruct (pool _ _) in E; [discriminate | inversion E; eauto]
      end.
Qed.

(** The calls and the result of the loop, against initialised
    collaborators. *)
Lemma searchAll_calls env embed pool plan topK subs acc t t' r :
  embedModel env = Some embed -> dbPool env = Some pool ->
  incl subs (subqueries plan) ->
  searchAll plan topK subs acc env t = (t', r) ->
  exists calls,
    t' = t ++ calls
    /\ Forall (sentBy plan topK) calls
    /\ count isEmbed calls <= length subs
    /\ count isSearch calls <= count isEmbed calls
    /\ count isFilter calls <= count isEmbed calls
    /\ (includes (enabledStrategies plan) (js "structured") = false ->
        count isFilter calls = 0)
    /\ (forall out, r = inr out ->
          count isEmbed calls = length subs
          /\ count isSearch calls = length subs
          /\ exists perSubquery,
               length perSubquery = length subs
               /\ Forall (fun rs => exists rows, rs = map (toSpeechResult env) rows)
                         perSubquery
               /\ out = acc ++ concat perSubquery).
Proof.
  intros He Hp. revert acc t.
  induction subs as [|sq subs IH]; intros acc t Hincl H.
  - simpl in H. inversion H; subst. exists []. rewrite app_nil_r.
    do 6 (split; [solve [auto | constructor] |]).
    intros out E. inversion E; subst. do 2 (split; [reflexivity|]).
    exists []. rewrite app_nil_r. auto.
  - simpl in H. unfold bind in H.
    destruct (searchSubquery plan topK sq env t) as [t1 r1] eqn:Hsub.
    destruct (@searchSubquery_calls env embed pool plan topK sq t t1 r1 He Hp
                (Hincl sq (or_introl eq_refl)) Hsub)
      as (c1 & -> & Hall1 & Hce1 & Hcs1 & Hcf1 & Hn1 & Hok1).
    destruct r1 as [e|rs].
    + inversion H; subst. exists c1. simpl.
      do 6 (split; [solve [auto | lia] |]). discriminate.
    + destruct (Hok1 rs eq_refl) as (Hcs1' & rows & Hrows).
      destruct (IH (acc ++ rs) (t ++ c1)
                  (fun x Hx => Hincl x (or_intror Hx)) H)
        as (c2 & -> & Hall2 & Hce2 & Hcs2 & Hcf2 & Hn2 & Hok2).
      exists (c1 ++ c2). rewrite !count_app, <- app_assoc.
      split; [reflexivity|].
      split; [apply Forall_app; auto|].
      split; [simpl; lia|].
      split; [lia|].
      split; [lia|].
      split; [intros Hs; rewrite (Hn1 Hs), (Hn2 Hs); reflexivity|].
      intros out E. destruct (Hok2 out E) as (E1 & E2 & per & Hlen & Hper & Hout).
      split; [simpl; lia|]. split; [simpl; lia|].
      exists (rs :: per). simpl. rewrite Hlen.
      split; [reflexivity|]. split; [constructor; eauto|].
      now rewrite Hout, <- app_assoc.
Qed.

Lemma searchWithPlan_run env embed pool plan topK t :
  embedModel env = Some embed -> dbPool env = Some pool ->
  searchWithPlan plan topK env t =
  match searchAll plan topK (subqueries plan) [] env t with
  | (t', inr allResults) => (t', inr (uniqueResults allResults topK))
  | (t', inl e) => (t', inl e)
  end.
Proof.
  intros He Hp. unfold searchWithPlan, bind at 1, ask. rewrite He, Hp.
  rewrite try_catch_rethrow. unfold bind, ret.
  destruct (searchAll plan topK (subqueries plan) [] env t) as [t' [e|a]];
    reflexivity.
Qed.

Lemma searchWithPlan_initialised env plan topK t t' results :
  searchWithPlan plan topK env t = (t', inr results) ->
  exists embed pool, embedModel env = Some embed /\ dbPool env = Some pool.
Proof.
  unfold searchWithPlan, bind at 1, ask.
  destruct (dbPool env) as [pool|], (embedModel env) as [embed|];
    try discriminate. eauto.
Qed.



Lemma or_str_nonempty s d : d <> [] -> or_str s d <> [].
Proof. intros Hd. destruct s as [[|c s]|]; simpl; auto. discriminate. Qed.

Lemma toSpeechResult_placeholders env row :
  speaker (toSpeechResult env row) <> []
  /\ party (toSpeechResult env row) <> []
  /\ date (toSpeechResult env row) <> []
  /\ meeting (toSpeechResult env row) <> [].
Proof.
  unfold toSpeechResult. cbn [speaker party date meeting].
  repeat split; apply or_str_nonempty; vm_compute; discriminate.
Qed.

(** X10. Every result [searchWithPlan] returns has a speaker, a party, a
    date and a meeting that are not empty: a [null] or empty column of the
    store is replaced by its placeholder. *)
Theorem results_carry_placeholders
    (env : Env) (plan : QueryPlan) (topK : Z) (t t' : Trace)
    (results : list SpeechResult) :
  searchWithPlan plan topK env t = (t', inr results) ->
  forall r, In r results ->
    speaker r <> [] /\ party r <> [] /\ date r <> [] /\ meeting r <> [].
Proof.
  intros H r Hr.
  destruct (@searchWithPlan_initialised env plan topK t t' results H)
    as (embed & pool & He & Hp).
  rewrite (@searchWithPlan_run env embed pool plan topK t He Hp) in H.
  destruct (searchAll plan topK (subqueries plan) [] env t) as [t1 [e|all]] eqn:Hall;
    [discriminate|].
  inversion H; subst.
  destruct (@searchAll_calls env embed pool plan topK (subqueries plan) [] t _ _
              He Hp (incl_refl _) Hall)
    as (calls & _ & _ & _ & _ & _ & _ & Hok).
  destruct (Hok all eq_refl) as (_ & _ & per & _ & Hper & ->).
  apply uniqueResults_In, dedupe_incl in Hr. simpl in Hr.
  apply in_concat in Hr. destruct Hr as (rs & Hrs & Hin).
  rewrite Forall_forall in Hper. destruct (Hper rs Hrs) as [rows ->].
  apply in_map_iff in Hin. destruct Hin as (row & <- & _).
  apply toSpeechResult_placeholders.
Qed.

Lemma results_carry_placeholders_witness :
  speaker (toSpeechResult
             (Scenario.world Scenario.no_parse None (Some Fixture.store_bare))
             (Fixture.bare_row "S9")) <> []
  /\ party (toSpeechResult
              (Scenario.world Scenario.no_parse None (Some Fixture.store_bare))
              (Fixture.bare_row "S9")) <> []
  /\ date (toSpeechResult
             (Scenario.world Scenario.no_parse None (Some Fixture.store_bare))
             (Fixture.bare_row "S9")) <> []
  /\ meeting (toSpeechResult
                (Scenario.world Scenario.no_parse None (Some Fixture.store_bare))
                (Fixture.bare_row "S9")) <> [].
Proof.
  apply (@results_carry_placeholders
           (Scenario.world Scenario.no_parse None (Some Fixture.store_bare))
           Scenario.vector_plan 5 []
           (fst (searchWithPlan Scenario.vector_plan 5
                   (Scenario.world Scenario.no_parse None (Some Fixture.store_bare)) []))
           [toSpeechResult
              (Scenario.world Scenario.no_parse None (Some Fixture.store_bare))
              (Fixture.bare_row "S9")]).
  - vm_compute. reflexivity.
  - simpl. left. reflexivity.
Defined.

Example bare_row_converted :
  toSpeechResult (Scenario.world Scenario.no_parse None (Some Fixture.store_bare))
    (Fixture.bare_row "S9")
  = {| speechId := js "S9"; speaker := js "未知の議員"; party := js "?";
       date := js "2024-01-01"; meeting := js "?"; content := []; url := [];
       score := num 0 |}.
Proof. vm_compute. reflexivity. Qed.

(** X11. A failure of the embedding service on a sub-query aborts the
    search before the store is contacted for that sub-query: the error is
    re-thrown and the trace ends with the embedding request. *)
Theorem embedding_failure_aborts
    (env : Env) (embed : Trace -> jsstring -> Exn + Vec)
    (pool : Trace -> Sql -> Exn + list DatabaseRow.t)
    (plan : QueryPlan) (topK : Z)
    (earlier later : list jsstring) (subquery : jsstring)
    (t t1 : Trace) (found : list SpeechResult) (e : Exn) :
  embedModel env = Some embed -> dbPool env = Some pool ->
  subqueries plan = earlier ++ subquery :: later ->
  searchAll plan topK earlier [] env t = (t1, inr found) ->
  embed t1 (expandedQuery plan subquery) = inl e ->
  searchWithPlan plan topK env t
  = (t1 ++ [CEmbed (expandedQuery plan subquery)], inl e).
Proof.
  intros He Hp Hsubs Hearlier Hfail.
  rewrite (@searchWithPlan_run env embed pool plan topK t He Hp).
  rewrite Hsubs, searchAll_app, Hearlier. simpl. unfold bind.
  rewrite (@searchSubquery_run env embed pool plan topK subquery t1 He Hp).
  cbv zeta. now rewrite Hfail.
Qed.

Lemma embedding_failure_aborts_witness :
  searchWithPlan Scenario.vector_plan 5 Fixture.no_embedding []
  = ([] ++ [CEmbed (expandedQuery Scenario.vector_plan (js "abc"))],
     inl (Error (js "connect ECONNREFUSED 127.0.0.1:11434"))).
Proof.
  apply (@embedding_failure_aborts Fixture.no_embedding Fixture.embed_down
           Scenario.store_ok Scenario.vector_plan 5
           [] [js "abcd"; js "abcde"] (js "abc") [] [] []).
  - reflexivity.
  - reflexivity.
  - reflexivity.
  - reflexivity.
  - reflexivity.
Defined.

Lemma searchWithPlan_uninitialised env plan topK t :
  embedModel env = None \/ dbPool env = None ->
  searchWithPlan plan topK env t
  = (t, inl (Error (js "Database or embedding model not initialized"))).
Proof.
  unfold searchWithPlan, bind, ask.
  destruct (dbPool env), (embedModel env); intros [H|H]; try discriminate;
    reflexivity.
Qed.

Lemma searchWithPlan_trace env plan topK t t' r :
  searchWithPlan plan topK env t = (t', r) ->
  exists calls,
    t' = t ++ calls
    /\ Forall (sentBy plan topK) calls
    /\ count isEmbed calls <= length (subqueries plan)
    /\ count isSearch calls <= count isEmbed calls
    /\ count isFilter calls <= count isEmbed calls
    /\ (includes (enabledStrategies plan) (js "structured") = false ->
        count isFilter calls = 0)
    /\ (forall results, r = inr results ->
          count isEmbed calls = length (subqueries plan)
          /\ count isSearch calls = length (subqueries plan)).
Proof.
  intros H.
  destruct (embedModel env) as [embed|] eqn:He, (dbPool env) as [pool|] eqn:Hp.
  - rewrite (@searchWithPlan_run env embed pool plan topK t He Hp) in H.
    destruct (searchAll plan topK (subqueries plan) [] env t) as [t1 r1] eqn:Hall.
    destruct (@searchAll_calls env embed pool plan topK (subqueries plan) [] t t1 r1
                He Hp (incl_refl _) Hall)
      as (calls & -> & Hsent & H1 & H2 & H3 & H4 & Hok).
    exists calls.
    assert (Ht : t' = t ++ calls) by (destruct r1; now inversion H).
    do 6 (split; [assumption|]).
    intros results E. subst r.
    destruct r1 as [e|all]; [discriminate|].
    destruct (Hok all eq_refl) as (E1 & E2 & _). auto.
  - rewrite searchWithPlan_uninitialised in H by auto.
    inversion H; subst. exists []. rewrite app_nil_r. unfold count. simpl.
    do 6 (split; [solve [auto | constructor | lia] |]). discriminate.
  - rewrite searchWithPlan_uninitialised in H by auto.
    inversion H; subst. exists []. rewrite app_nil_r. unfold count. simpl.
    do 6 (split; [solve [auto | constructor | lia] |]). discriminate.
  - rewrite searchWithPlan_uninitialised in H by auto.
    inversion H; subst. exists []. rewrite app_nil_r. unfold count. simpl.
    do 6 (split; [solve [auto | constructor | lia] |]). discriminate.
Qed.

(** X12. Whatever its outcome, [searchWithPlan] embeds at most one text
    per sub-query, sends no search or filter statement without an embedding
    before it, and sends no filter statement unless [structured] is enabled;
    when it returns results it has made exactly one embedding request and
    one search statement per sub-query. *)
Theorem searchWithPlan_call_counts
    (env : Env) (plan : QueryPlan) (topK : Z) (t t' : Trace)
    (r : Exn + list SpeechResult) :
  searchWithPlan plan topK env t = (t', r) ->
  exists calls,
    t' = t ++ calls
    /\ count isEmbed calls <= length (subqueries plan)
    /\ count isSearch calls <= count isEmbed calls
    /\ count isFilter calls <= count isEmbed calls
    /\ (includes (enabledStrategies plan) (js "structured") = false ->
        count isFilter calls = 0)
    /\ (forall results, r = inr results ->
          count isEmbed calls = length (subqueries plan)
          /\ count isSearch calls = length (subqueries plan)).
Proof.
  intros H. destruct (searchWithPlan_trace _ _ _ _ H)
    as (calls & Ht & _ & H1 & H2 & H3 & H4 & H5).
  exists calls. auto 10.
Qed.

Lemma searchWithPlan_call_counts_witness :
  exists calls,
    fst (searchWithPlan Scenario.vector_plan 5
           (Scenario.world Scenario.no_parse None (Some Scenario.store_ok)) [])
    = [] ++ calls
    /\ count isEmbed calls <= length (subqueries Scenario.vector_plan)
    /\ count isSearch calls <= count isEmbed calls
    /\ count isFilter calls <= count isEmbed calls
    /\ (includes (enabledStrategies Scenario.vector_plan) (js "structured") = false ->
        count isFilter calls = 0)
    /\ (forall results,
          snd (searchWithPlan Scenario.vector_plan 5
                 (Scenario.world Scenario.no_parse None (Some Scenario.store_ok)) [])
          = inr results ->
          count isEmbed calls = length (subqueries Scenario.vector_plan)
          /\ count isSearch calls = length (subqueries Scenario.vector_plan)).
Proof.
  apply (@searchWithPlan_call_counts
           (Scenario.world Scenario.no_parse None (Some Scenario.store_ok))
           Scenario.vector_plan 5 []).
  vm_compute. reflexivity.
Defined.

(** X13. Everything [searchWithPlan] sends out is an embedding request for
    the expanded text of one of the plan's sub-queries, the filter
    statement of the plan's entities (only with [structured] enabled), or a
    search statement limited to [topK] that is unrestricted at ceiling 0.7
    (0.6 with [structured] enabled) or restricted to a non-empty id list at
    ceiling 0.8.  It never calls the completion service and never restricts
    a search to an empty id list. *)
Theorem searchWithPlan_sends_only
    (env : Env) (plan : QueryPlan) (topK : Z) (t t' : Trace)
    (r : Exn + list SpeechResult) :
  searchWithPlan plan topK env t = (t', r) ->
  exists calls, t' = t ++ calls /\ Forall (sentBy plan topK) calls.
Proof.
  intros H. destruct (searchWithPlan_trace _ _ _ _ H) as (calls & Ht & Hs & _).
  eauto.
Qed.

Lemma searchWithPlan_sends_only_witness :
  exists calls,
    fst (searchWithPlan Scenario.structured_plan 5
           (Scenario.world Scenario.no_parse None (Some Scenario.store_ok)) [])
    = [] ++ calls
    /\ Forall (sentBy Scenario.structured_plan 5) calls.
Proof.
  apply (@searchWithPlan_sends_only
           (Scenario.world Scenario.no_parse None (Some Scenario.store_ok))
           Scenario.structured_plan 5 []
           (fst (searchWithPlan Scenario.structured_plan 5
                   (Scenario.world Scenario.no_parse None (Some Scenario.store_ok)) []))
           (snd (searchWithPlan Scenario.structured_plan 5
                   (Scenario.world Scenario.no_parse None (Some Scenario.store_ok)) []))).
  vm_compute. reflexivity.
Defined.

(* ===================================================================== *)
(** * More on the planners *)
(* ===================================================================== *)

Lemma optProp_absent v k : absent v -> optProp v k = None.
Proof. now intros [->| ->]. Qed.

Lemma planKokkaiQuery_run env complete question t :
  llm env = Some complete ->
  planKokkaiQuery question env t =
  match complete t (plannerPrompt question) with
  | inl e => (t ++ [CComplete (plannerPrompt question)], inl e)
  | inr text =>
    parsePlan question (trim text) env (t ++ [CComplete (plannerPrompt question)])
  end.
Proof.
  intros Hllm. unfold planKokkaiQuery, bind at 1, ask. rewrite Hllm.
  rewrite try_catch_rethrow. unfold bind, call.
  destruct (complete t _); reflexivity.
Qed.

Lemma createQueryPlan_run env client userQuestion t :
  getOpenAIClient env = inr client ->
  createQueryPlan userQuestion env t =
  let req := {|
    system_content := getQueryPlanSystemPrompt env;
    user_content := createQueryPlanPrompt env userQuestion;
    model := resolveModel env (js "query_planning");
    max_tokens := 3000;
    temperature := num (3 # 10)
  |} in
  match client t req with
  | inl e => (t ++ [CChat req], inl e)
  | inr content =>
    match option_map trim content with
    | None | Some [] =>
      (t ++ [CChat req], inl (Error (js "No text in completion response")))
    | Some planText => parsePlan userQuestion planText env (t ++ [CChat req])
    end
  end.
Proof.
  intros Hc. unfold createQueryPlan, bind at 1, ask.
  rewrite try_catch_rethrow. unfold bind, lift, call. rewrite Hc. cbv zeta.
  destruct (client t _) as [e|content]; [reflexivity|].
  destruct (option_map trim content) as [[|c s]|]; reflexivity.
Qed.

Lemma toQueryPlan_keyless question planData :
  planData <> JNull ->
  absent (prop planData (js "subqueries")) ->
  absent (prop planData (js "entities")) ->
  absent (prop planData (js "enabledStrategies")) ->
  absent (prop planData (js "confidence")) ->
  absent (prop planData (js "estimatedComplexity")) ->
  toQueryPlan question planData = inr (defaultPlan question).
Proof.
  intros Hn H1 H2 H3 H4 H5.
  assert (E : toQueryPlan question planData = inr {|
      Dyn.originalQuestion := question;
      Dyn.subqueries := or_else (prop planData (js "subqueries")) (JArr [JStr question]);
      Dyn.entities := {|
        Dyn.speakers := or_else (optProp (prop planData (js "entities")) (js "speakers")) (JArr []);
        Dyn.parties := or_else (optProp (prop planData (js "entities")) (js "parties")) (JArr []);
        Dyn.topics := or_else (optProp (prop planData (js "entities")) (js "topics")) (JArr []);
        Dyn.meetings := or_else (optProp (prop planData (js "entities")) (js "meetings")) (JArr []);
        Dyn.positions := or_else (optProp (prop planData (js "entities")) (js "positions")) (JArr []);
        Dyn.dateRange := optProp (prop planData (js "entities")) (js "dateRange")
      |};
      Dyn.enabledStrategies :=
        or_else (prop planData (js "enabledStrategies")) (JArr [JStr (js "vector")]);
      Dyn.confidence := or_else (prop planData (js "confidence")) (JNum (num (1 # 2)));
      Dyn.estimatedComplexity :=
        or_else (prop planData (js "estimatedComplexity")) (JNum (num 2))
    |}) by (destruct planData; [contradiction | reflexivity ..]).
  rewrite E. rewrite !(optProp_absent _ H2).
  rewrite (or_else_absent _ H1), (or_else_absent _ H3),
          (or_else_absent _ H4), (or_else_absent _ H5).
  reflexivity.
Qed.

Lemma logPlan_default question : logPlan (defaultPlan question) = inr tt.
Proof. reflexivity. Qed.

(** X14. A response that parses to anything but [null] and has none of
    the plan's keys (an empty object, a number, a string, an array, an
    object with other keys or with [null] under these keys) gives the
    default plan: the question as the only sub-query, empty entity lists, no
    date range, the strategy [vector], confidence 0.5 and complexity 2. *)
Theorem keyless_response_gives_default_plan
    (env : Env) (complete : Trace -> jsstring -> Exn + jsstring)
    (question text : jsstring) (planData : json) (t : Trace) :
  llm env = Some complete ->
  complete t (plannerPrompt question) = inr text ->
  JSON_parse env (trim text) = inr planData ->
  planData <> JNull ->
  absent (prop planData (js "subqueries")) ->
  absent (prop planData (js "entities")) ->
  absent (prop planData (js "enabledStrategies")) ->
  absent (prop planData (js "confidence")) ->
  absent (prop planData (js "estimatedComplexity")) ->
  planKokkaiQuery question env t
  = (t ++ [CComplete (plannerPrompt question)], inr (defaultPlan question)).
Proof.
  intros Hllm Hc Hp Hn H1 H2 H3 H4 H5.
  rewrite (@planKokkaiQuery_run env complete question t Hllm), Hc.
  rewrite parsePlan_run, Hp.
  rewrite (toQueryPlan_keyless question Hn H1 H2 H3 H4 H5).
  now rewrite logPlan_default.
Qed.

Lemma keyless_response_gives_default_plan_witness :
  planKokkaiQuery Scenario.question (Scenario.planner_world (js "{}")) []
  = ([] ++ [CComplete (plannerPrompt Scenario.question)],
     inr (defaultPlan Scenario.question)).
Proof.
  apply (@keyless_response_gives_default_plan
           (Scenario.planner_world (js "{}")) (Scenario.llm_says (js "{}"))
           Scenario.question (js " " ++ js "{}" ++ nl) (JObj []) []).
  - reflexivity.
  - reflexivity.
  - vm_compute. reflexivity.
  - discriminate.
  - left. reflexivity.
  - left. reflexivity.
  - left. reflexivity.
  - left. reflexivity.
  - left. reflexivity.
Defined.

(** X15. With the completion service initialised, [planKokkaiQuery] makes
    exactly one completion request and no other call, whatever the outcome.
    A failure of that request is re-thrown as it is; a response that is not
    JSON is re-thrown as an error whose message carries the parser's message
    and the trimmed response; the response [null] ends in a [TypeError]. *)
Theorem planning_failure_is_fatal
    (env : Env) (complete : Trace -> jsstring -> Exn + jsstring)
    (question : jsstring) (t : Trace) :
  llm env = Some complete ->
  fst (planKokkaiQuery question env t) = t ++ [CComplete (plannerPrompt question)]
  /\ (forall e, complete t (plannerPrompt question) = inl e ->
                snd (planKokkaiQuery question env t) = inl e)
  /\ (forall text message,
        complete t (plannerPrompt question) = inr text ->
        JSON_parse env (trim text) = inl message ->
        snd (planKokkaiQuery question env t)
        = inl (Error (js "Failed to parse LLM response as JSON: " ++ message
                      ++ nl ++ js "Response: " ++ trim text)))
  /\ (forall text,
        complete t (plannerPrompt question) = inr text ->
        JSON_parse env (trim text) = inr JNull ->
        exists message, snd (planKokkaiQuery question env t) = inl (TypeError message)).
Proof.
  intros Hllm. rewrite (@planKokkaiQuery_run env complete question t Hllm).
  repeat split.
  - destruct (complete t _); [reflexivity|]. now rewrite parsePlan_run.
  - now intros e ->.
  - intros text m -> Hp. now rewrite parsePlan_run, Hp.
  - intros text -> Hp. rewrite parsePlan_run, Hp. simpl. eauto.
Qed.

Lemma planning_failure_is_fatal_witness :
  fst (planKokkaiQuery Scenario.question (Scenario.planner_world (js "はい")) [])
  = [] ++ [CComplete (plannerPrompt Scenario.question)]
  /\ snd (planKokkaiQuery Scenario.question (Scenario.planner_world (js "はい")) [])
     = inl (Error (js "Failed to parse LLM response as JSON: "
                   ++ js "Unexpected token"
                   ++ nl ++ js "Response: " ++ trim (js " " ++ js "はい" ++ nl))).
Proof.
  destruct (@planning_failure_is_fatal
              (Scenario.planner_world (js "はい")) (Scenario.llm_says (js "はい"))
              Scenario.question [] eq_refl) as (Ht & _ & Hparse & _).
  split; [exact Ht|].
  apply Hparse.
  - reflexivity.
  - vm_compute. reflexivity.
Defined.






(** X17. The two planners treat a response alike: when the completion
    service and the chat client answer with texts that trim to the same
    non-empty text, [planKokkaiQuery] and [createQueryPlan] end in the same
    plan or the same error. *)
Theorem planners_agree
    (env : Env) (complete : Trace -> jsstring -> Exn + jsstring)
    (client : Trace -> ChatRequest -> Exn + option jsstring)
    (question text content : jsstring) (t1 t2 : Trace) :
  llm env = Some complete ->
  getOpenAIClient env = inr client ->
  complete t1 (plannerPrompt question) = inr text ->
  client t2 {| system_content := getQueryPlanSystemPrompt env;
               user_content := createQueryPlanPrompt env question;
               model := resolveModel env (js "query_planning");
               max_tokens := 3000;
               temperature := num (3 # 10) |} = inr (Some content) ->
  trim content = trim text ->
  trim text <> [] ->
  snd (planKokkaiQuery question env t1) = snd (createQueryPlan question env t2).
Proof.
  intros Hllm Hcl Hc Hchat Htrim Hne.
  rewrite (@planKokkaiQuery_run env complete question t1 Hllm), Hc.
  rewrite (@createQueryPlan_run env client question t2 Hcl). cbv zeta.
  rewrite Hchat. cbn [option_map]. rewrite Htrim.
  destruct (trim text) as [|c s] eqn:E; [congruence|].
  now rewrite !parsePlan_run.
Qed.

Lemma planners_agree_witness :
  snd (planKokkaiQuery Scenario.question
         (Fixture.both_planners Scenario.response_four) [])
  = snd (createQueryPlan Scenario.question
           (Fixture.both_planners Scenario.response_four) []).
Proof.
  apply (@planners_agree (Fixture.both_planners Scenario.response_four)
           (Scenario.llm_says Scenario.response_four)
           (Fixture.chat_says (Some (js " " ++ Scenario.response_four)))
           Scenario.question
           (js " " ++ Scenario.response_four ++ nl)
           (js " " ++ Scenario.response_four) [] []).
  - reflexivity.
  - reflexivity.
  - reflexivity.
  - reflexivity.
  - vm_compute. reflexivity.
  - vm_compute. discriminate.
Defined.

Lemma trimStart_blank s : forallb is_space s = true -> trimStart s = [].
Proof.
  induction s as [|c s IH]; simpl; [reflexivity|].
  destruct (is_space c); simpl; [assumption | discriminate].
Qed.

Lemma trim_blank s : forallb is_space s = true -> trim s = [].
Proof. intros H. unfold trim. now rewrite (trimStart_blank s H). Qed.

(** X18. [createQueryPlan] rejects a completion without text: when the
    chat client returns no content, or content made of white space only, it
    throws the error [No text in completion response] after its one
    request. *)
Theorem blank_content_is_rejected
    (env : Env) (client : Trace -> ChatRequest -> Exn + option jsstring)
    (userQuestion : jsstring) (content : option jsstring) (t : Trace) :
  getOpenAIClient env = inr client ->
  client t {| system_content := getQueryPlanSystemPrompt env;
              user_content := createQueryPlanPrompt env userQuestion;
              model := resolveModel env (js "query_planning");
              max_tokens := 3000;
              temperature := num (3 # 10) |} = inr content ->
  content = None \/ (exists s, content = Some s /\ forallb is_space s = true) ->
  createQueryPlan userQuestion env t
  = (t ++ [CChat {| system_content := getQueryPlanSystemPrompt env;
                    user_content := createQueryPlanPrompt env userQuestion;
                    model := resolveModel env (js "query_planning");
                    max_tokens := 3000;
                    temperature := num (3 # 10) |}],
     inl (Error (js "No text in completion response"))).
Proof.
  intros Hcl Hchat Hblank.
  rewrite (@createQueryPlan_run env client userQuestion t Hcl). cbv zeta.
  rewrite Hchat.
  destruct Hblank as [->|(s & -> & Hs)]; cbn [option_map].
  - reflexivity.
  - now rewrite (trim_blank s Hs).
Qed.

Lemma blank_content_is_rejected_witness :
  snd (createQueryPlan Scenario.question (Fixture.both_planners []) [])
  = inl (Error (js "No text in completion response")).
Proof.
  rewrite (@blank_content_is_rejected (Fixture.both_planners [])
             (Fixture.chat_says (Some (js " " ++ [])))
             Scenario.question (Some (js " " ++ [])) []).
  - reflexivity.
  - reflexivity.
  - reflexivity.
  - right. exists (js " " ++ []). split; reflexivity.
Defined.

(* ===================================================================== *)
(** * More on the answer, the console and the composed search *)
(* ===================================================================== *)

Lemma contextBlock_fields r i :
  contains (contextBlock r i) (speaker r)
  /\ contains (contextBlock r i) (party r)
  /\ contains (contextBlock r i) (date r)
  /\ contains (contextBlock r i) (meeting r)
  /\ contains (contextBlock r i) (content r)
  /\ contains (contextBlock r i) (url r)
  /\ contains (contextBlock r i) (toFixed (score r) 3).
Proof. unfold contextBlock. repeat split; find_part. Qed.

Lemma answerPrompt_block query results r :
  In r results -> exists i, contains (answerPrompt query results) (contextBlock r i).
Proof.
  intros Hin. destruct (mapi_from_In contextBlock results 0 r Hin) as [i Hi].
  exists i. unfold answerPrompt. cbv zeta.
  eapply contains_trans.
  - apply contains_join. do 5 right. left. reflexivity.
  - now apply contains_join.
Qed.

(** X19. The prompt of [generateAnswer] carries the question and, for
    every result, its speaker, party, date, meeting, url, score to three
    decimals and its whole content, not cut at 300 code units as in the
    fallback answer. *)
Theorem prompt_carries_evidence (query : jsstring) (results : list SpeechResult) :
  contains (answerPrompt query results) query
  /\ forall r, In r results ->
       contains (answerPrompt query results) (speaker r)
       /\ contains (answerPrompt query results) (party r)
       /\ contains (answerPrompt query results) (date r)
       /\ contains (answerPrompt query results) (meeting r)
       /\ contains (answerPrompt query results) (content r)
       /\ contains (answerPrompt query results) (url r)
       /\ contains (answerPrompt query results) (toFixed (score r) 3).
Proof.
  split.
  - unfold answerPrompt. cbv zeta. eapply contains_trans.
    + apply contains_join. do 2 right. left. reflexivity.
    + find_part.
  - intros r Hin. destruct (answerPrompt_block query results r Hin) as [i Hi].
    destruct (contextBlock_fields r i) as (H1 & H2 & H3 & H4 & H5 & H6 & H7).
    repeat split; eapply contains_trans; eauto.
Qed.

Lemma mapi_from_concat_length {A B} (f : A -> nat -> list B) n l i :
  (forall x j, length (f x j) = n) ->
  length (concat (mapi_from i f l)) = n * length l.
Proof.
  intros Hf. revert i. induction l as [|x l IH]; intros i; simpl; [lia|].
  rewrite length_app, Hf, IH. lia.
Qed.

Lemma formatResults_lines results r :
  In r results ->
  exists i, incl (resultLines r i) (formatResults results).
Proof.
  intros Hin. destruct (mapi_from_In resultLines results 0 r Hin) as [i Hi].
  exists i. intros line Hline. right. apply in_concat. eauto.
Qed.

(** X20. [formatResults] logs one header line and eight lines per result.
    The line of a result's url is always there; its content is printed
    whole and without an ellipsis when it has at most 300 code units, and
    cut to its first 300 code units followed by [...] when it is longer. *)
Theorem formatResults_shape (results : list SpeechResult) :
  length (formatResults results) = 1 + 8 * length results
  /\ forall r, In r results ->
       In (js "🔗 URL: " ++ url r) (formatResults results)
       /\ (length (content r) <= 300 ->
           In (js "💬 Content: " ++ content r) (formatResults results))
       /\ (300 < length (content r) ->
           In (js "💬 Content: " ++ firstn 300 (content r) ++ js "...")
              (formatResults results)).
Proof.
  split.
  - unfold formatResults, mapi. cbn [length].
    now rewrite (@mapi_from_concat_length _ _ resultLines 8).
  - intros r Hin. destruct (formatResults_lines results r Hin) as [i Hi].
    split; [|split].
    + apply Hi. unfold resultLines. do 5 right. left. reflexivity.
    + intros Hlen. apply Hi. unfold resultLines. do 6 right. left.
      unfold substring0. rewrite firstn_all2 by assumption.
      destruct (Nat.ltb_spec 300 (length (content r))); [lia|].
      now rewrite app_nil_r.
    + intros Hlen. apply Hi. unfold resultLines. do 6 right. left.
      unfold substring0.
      destruct (Nat.ltb_spec 300 (length (content r))); [reflexivity | lia].
Qed.

Lemma formatResults_shape_witness :
  In (js "💬 Content: " ++ content (Fixture.long_hit "S7" 12))
     (formatResults [Fixture.long_hit "S7" 12; Fixture.long_hit "S8" 301])
  /\ In (js "💬 Content: " ++ firstn 300 (content (Fixture.long_hit "S8" 301))
           ++ js "...")
        (formatResults [Fixture.long_hit "S7" 12; Fixture.long_hit "S8" 301]).
Proof.
  split.
  - apply (proj2 (formatResults_shape
                    [Fixture.long_hit "S7" 12; Fixture.long_hit "S8" 301])
             (Fixture.long_hit "S7" 12)).
    + simpl. left. reflexivity.
    + vm_compute. lia.
  - apply (proj2 (formatResults_shape
                    [Fixture.long_hit "S7" 12; Fixture.long_hit "S8" 301])
             (Fixture.long_hit "S8" 301)).
    + simpl. right. left. reflexivity.
    + vm_compute. lia.
Defined.

Example formatResults_header :
  hd [] (formatResults Scenario.three_hits) = nl ++ js "📋 Found 3 results:" ++ nl.
Proof. vm_compute. reflexivity. Qed.

Example js_surrogate_pair : js "📋" = [55357; 56523]%N.
Proof. vm_compute. reflexivity. Qed.

Lemma planKokkaiQuery_trace env question t t' r :
  planKokkaiQuery question env t = (t', r) ->
  t' = t \/ t' = t ++ [CComplete (plannerPrompt question)].
Proof.
  destruct (llm env) as [complete|] eqn:Hllm.
  - rewrite (@planKokkaiQuery_run env complete question t Hllm).
    destruct (complete t _) as [e|text].
    + intros H. inversion H. now right.
    + rewrite parsePlan_run. intros H. inversion H. now right.
  - unfold planKokkaiQuery, bind, ask. rewrite Hllm.
    intros H. inversion H. now left.
Qed.

(** X21. When planning fails, [search] fails with the planner's error and
    contacts neither the embedding service nor the store. *)
Theorem search_stops_at_planning_failure
    (env : Env) (query : jsstring) (topK : Z) (t t' : Trace) (e : Exn) :
  planKokkaiQuery query env t = (t', inl e) ->
  search query topK env t = (t', Some (inl e))
  /\ exists calls,
       t' = t ++ calls
       /\ count isEmbed calls = 0
       /\ count isFilter calls = 0
       /\ count isSearch calls = 0.
Proof.
  intros H. split.
  - unfold search. now rewrite H.
  - destruct (planKokkaiQuery_trace _ _ _ H) as [->| ->].
    + exists []. now rewrite app_nil_r.
    + eexists. split; [reflexivity|]. repeat split.
Qed.

Lemma search_stops_at_planning_failure_witness :
  search Scenario.question 5 (Scenario.planner_world (js "はい")) []
  = ([CComplete (plannerPrompt Scenario.question)],
     Some (inl (Error (js "Failed to parse LLM response as JSON: Unexpected token"
                       ++ nl ++ js "Response: はい")))).
Proof.
  apply (@search_stops_at_planning_failure
           (Scenario.planner_world (js "はい")) Scenario.question 5 []).
  vm_compute. reflexivity.
Defined.



(** X23. A collaborator that was not initialised is reported before any
    call is made: without a completion service [planKokkaiQuery] and
    [generateAnswer] throw [LLM not initialized]; without a store or an
    embedding service [searchWithPlan] throws [Database or embedding model
    not initialized]; without a store [applyStructuredFilter] throws
    [Database not initialized]; and [createQueryPlan] re-throws the error of
    [getOpenAIClient].  The trace is left as it was. *)
Theorem uninitialised_is_reported (env : Env) (t : Trace) :
  (llm env = None ->
   (forall question,
       planKokkaiQuery question env t = (t, inl (Error (js "LLM not initialized"))))
   /\ (forall query results,
         generateAnswer query results env t
         = (t, inl (Error (js "LLM not initialized")))))
  /\ (embedModel env = None \/ dbPool env = None ->
      forall plan topK,
        searchWithPlan plan topK env t
        = (t, inl (Error (js "Database or embedding model not initialized"))))
  /\ (dbPool env = None ->
      forall ents,
        applyStructuredFilter ents env t
        = (t, inl (Error (js "Database not initialized"))))
  /\ (forall e, getOpenAIClient env = inl e ->
      forall userQuestion, createQueryPlan userQuestion env t = (t, inl e)).
Proof.
  split; [|split; [|split]].
  - intros H. split; intros;
      [unfold planKokkaiQuery | unfold generateAnswer];
      unfold bind, ask; now rewrite H.
  - intros H plan topK. now apply searchWithPlan_uninitialised.
  - intros H ents. unfold applyStructuredFilter, bind, ask. now rewrite H.
  - intros e H q. unfold createQueryPlan, bind at 1, ask.
    rewrite try_catch_rethrow. unfold bind, lift. now rewrite H.
Qed.

Lemma uninitialised_is_reported_witness :
  generateAnswer Scenario.question Scenario.three_hits
    (Scenario.world Scenario.no_parse None None) []
  = ([], inl (Error (js "LLM not initialized")))
  /\ searchWithPlan Scenario.vector_plan 5
       (Scenario.world Scenario.no_parse None None) []
     = ([], inl (Error (js "Database or embedding model not initialized")))
  /\ createQueryPlan Scenario.question
       (Scenario.world Scenario.no_parse None None) []
     = ([], inl (Error (js "OPENAI_API_KEY is not set"))).
Proof.
  destruct (@uninitialised_is_reported
              (Scenario.world Scenario.no_parse None None) [])
    as (Hllm & Hsearch & _ & Hclient).
  split; [|split].
  - apply (proj2 (Hllm eq_refl)).
  - apply Hsearch. right. reflexivity.
  - apply (Hclient _ eq_refl).
Defined.

Lemma prompt_carries_evidence_witness :
  contains (answerPrompt (js "防衛費") [Fixture.long_hit "S8" 301])
           (content (Fixture.long_hit "S8" 301))
  /\ contains (answerPrompt (js "防衛費") [Fixture.long_hit "S8" 301])
              (url (Fixture.long_hit "S8" 301)).
Proof.
  destruct (proj2 (prompt_carries_evidence (js "防衛費") [Fixture.long_hit "S8" 301])
              (Fixture.long_hit "S8" 301))
    as (_ & _ & _ & _ & Hcontent & Hurl & _).
  - simpl. left. reflexivity.
  - split; assumption.
Defined.
